(** * regrev: revision classifier and tabular merge

    A shallow embedding of the two notebooks of the repository:

    - "Retrieving Incremental Outputs": the three revision classifiers
      [is_revision], [is_convenient_revision], [is_effective_revision], the
      prefix selection [get_prefixes] and the per-token driver
      [get_revised_signal];
    - "Preparing the data for the R analysis": the validation cell that
      guards the merge, and the melt-and-split cell that writes one long
      table per model column.

    Python values are modelled as follows.  A label is a [string]; a prefix
    output is a [list string]; the output trace of one task is a dictionary
    from text identifiers to lists of prefix outputs, a [gmap].  A Python
    exception is a value of [exn], and a function that may raise returns a
    [result].  Integers are [Z]. *)

From Stdlib Require Import ZArith String Ascii List Lia.
From stdpp Require Import base option list gmap strings pretty.

Open Scope Z_scope.

(** ** Python: exceptions, assertions, sequences *)

Module Py.

Inductive exn : Set :=
  | AssertionError
  | IndexError
  | KeyError
  | ValueError
  | AttributeError.

Inductive result (A : Type) : Type :=
  | Ok (a : A)
  | Raise (e : exn).

Arguments Ok {A} a.
Arguments Raise {A} e.

#[export] Instance result_ret : MRet result := fun A a => Ok a.

#[export] Instance result_bind : MBind result :=
  fun A B f m => match m with Ok a => f a | Raise e => Raise e end.

(** [assert b] *)
Definition py_assert (b : bool) : result unit :=
  if b then Ok tt else Raise AssertionError.

(** [len(l)] *)
Definition py_len {A : Type} (l : list A) : Z := Z.of_nat (length l).

(** [a == b] on two lists of strings: same length and equal items. *)
Fixpoint py_list_eq (a b : list string) : bool :=
  match a, b with
  | [], [] => true
  | x :: a', y :: b' => if String.eqb x y then py_list_eq a' b' else false
  | _, _ => false
  end.

(** [l[i]]: a negative index counts from the end, an index out of range
    raises [IndexError]. *)
Definition py_index {A : Type} (l : list A) (i : Z) : result A :=
  let j := if i <? 0 then py_len l + i else i in
  if (j <? 0) || (py_len l <=? j) then Raise IndexError
  else match l !! Z.to_nat j with
       | Some x => Ok x
       | None => Raise IndexError
       end.

(** [l[:n]] for [n >= 0] *)
Definition py_slice_to {A : Type} (l : list A) (n : Z) : list A :=
  take (Z.to_nat n) l.

(** [d[k]] on a dictionary: a missing key raises [KeyError]. *)
Definition py_getitem {V : Type} (d : gmap string V) (k : string) : result V :=
  match d !! k with
  | Some v => Ok v
  | None => Raise KeyError
  end.

(** [sum(...)] over booleans, each counting for 0 or 1. *)
Fixpoint py_sum (bs : list bool) : Z :=
  match bs with
  | [] => 0
  | b :: bs' => (if b then 1 else 0) + py_sum bs'
  end.

End Py.

Import Py.

(** ** NumPy: elementwise comparison of two arrays of strings

    [np.array(a)] stores a list of strings in cells of one fixed width,
    padded with NUL characters, so a string cannot be told from the same
    string followed by NUL characters: [np.array(a) == np.array(b)]
    compares the strings itemwise up to trailing NULs.  It is only
    evaluated by the classifier after the assertion that both lists have
    the same length. *)

Module Np.

Definition NUL : ascii := Ascii.zero.

(** A string without the NUL characters at its end. *)
Fixpoint rstrip_nul (s : string) : string :=
  match s with
  | EmptyString => EmptyString
  | String ch rest =>
      match rstrip_nul rest with
      | EmptyString =>
          if Ascii.eqb ch NUL then EmptyString else String ch EmptyString
      | String ch' rest' => String ch (String ch' rest')
      end
  end.

(** The comparison of two cells. *)
Definition str_eq (x y : string) : bool :=
  String.eqb (rstrip_nul x) (rstrip_nul y).

Fixpoint array_eq (a b : list string) : list bool :=
  match a, b with
  | x :: a', y :: b' => str_eq x y :: array_eq a' b'
  | _, _ => []
  end.

End Np.

(** ** The revision classifier *)

Module Revision.

(** If no revision occurred, what label to use for convenient and
    effective. *)
Definition NA_LABEL : Z := 0.

(** Return 1 if a revision occurred, else 0. *)
Definition is_revision (previous current : list string) : result Z :=
  _ ← py_assert (py_len previous =? py_len current);
  if py_list_eq previous current then Ok 0 else Ok 1.

(** Return 1 if a convenient revision occurred, else 0. *)
Definition is_convenient_revision (previous current final : list string)
  : result Z :=
  _ ← py_assert (py_len previous =? py_len final);
  r ← is_revision previous current;
  if r =? 0 then Ok NA_LABEL
  else if py_list_eq previous final then Ok 0
  else Ok 1.

(** Return 1 if an effective revision occurred, else 0. *)
Definition is_effective_revision (previous current final : list string)
  : result Z :=
  _ ← py_assert ((py_len previous =? py_len final) && (py_len final =? py_len current));
  r ← is_revision previous current;
  if r =? 0 then Ok NA_LABEL
  else
    let n_correct_before := py_sum (Np.array_eq previous final) in
    let n_correct_after := py_sum (Np.array_eq current final) in
    if n_correct_after <=? n_correct_before then Ok 0
    else Ok 1.

(** Return previous output, current prefix and final prefix up to label i. *)
Definition get_prefixes (outputs : gmap string (list (list string)))
    (text_idx : string) (i : Z)
  : result (list string * list string * list string) :=
  trace ← py_getitem outputs text_idx;
  previous_prefix ← py_index trace (i - 1);
  let previous_len := py_len previous_prefix in
  trace ← py_getitem outputs text_idx;
  current ← py_index trace i;
  let current_prefix := py_slice_to current previous_len in
  trace ← py_getitem outputs text_idx;
  last ← py_index trace (-1);
  let final_prefix := py_slice_to last previous_len in
  Ok (previous_prefix, current_prefix, final_prefix).

(** Return the labels for the revision dataframe. *)
Definition get_revised_signal (outputs : gmap string (list (list string)))
    (text_idx : string) (i : Z) : result (Z * Z * Z) :=
  if i =? 0 then Ok (0, NA_LABEL, NA_LABEL)
  else
    '(previous, current, final) ← get_prefixes outputs text_idx i;
    revised ← is_revision previous current;
    conv_revised ← is_convenient_revision previous current final;
    effec_revised ← is_effective_revision previous current final;
    Ok (revised, conv_revised, effec_revised).

End Revision.

Import Revision.

(** ** Python: strings and ordered dictionaries *)

Module PyStr.

(** [sub in s] *)
Fixpoint py_in (sub s : string) : bool :=
  String.prefix sub s
  || match s with
     | EmptyString => false
     | String _ rest => py_in sub rest
     end.

(** [s.split(sep)] for a separator of one character. *)
Fixpoint py_split (sep : ascii) (s : string) : list string :=
  match s with
  | EmptyString => [EmptyString]
  | String ch rest =>
      if Ascii.eqb ch sep then EmptyString :: py_split sep rest
      else match py_split sep rest with
           | w :: ws => String ch w :: ws
           | [] => [String ch EmptyString]
           end
  end.

(** [s.replace(old, new)] for a non-empty [old]: every occurrence, from the
    left, without overlap.  [skip] counts the characters of an occurrence
    that are still to be passed over. *)
Fixpoint replace_from (old new : string) (skip : nat) (s : string) : string :=
  match s with
  | EmptyString => EmptyString
  | String ch rest =>
      match skip with
      | S k => replace_from old new k rest
      | O =>
          if String.prefix old s
          then new +:+ replace_from old new (String.length old - 1) rest
          else String ch (replace_from old new 0 rest)
      end
  end.

Definition py_replace (old new s : string) : string := replace_from old new 0 s.

(** A dictionary that is iterated over: its items in insertion order. *)
Definition dict (V : Type) : Type := list (string * V).

(** [d[k]] *)
Fixpoint dict_getitem {V : Type} (d : dict V) (k : string) : result V :=
  match d with
  | [] => Raise KeyError
  | (k', v) :: d' => if String.eqb k' k then Ok v else dict_getitem d' k
  end.

(** [d.values()] *)
Definition dict_values {V : Type} (d : dict V) : list V := snd <$> d.

(** [all(bs)] *)
Definition py_all (bs : list bool) : bool := forallb id bs.

(** [for x in l: f(x)], stopping at the first exception. *)
Fixpoint for_each {A : Type} (f : A → result unit) (l : list A) : result unit :=
  match l with
  | [] => Ok tt
  | x :: l' => _ ← f x; for_each f l'
  end.

(** [a, b = l] *)
Definition unpack2 {A : Type} (l : list A) : result (A * A) :=
  match l with
  | [a; b] => Ok (a, b)
  | _ => Raise ValueError
  end.

End PyStr.

Import PyStr.

(** ** pandas: the part of the data frame interface that the notebook uses

    A frame is an index (an optional name, the row labels) and its columns
    in order, each one a name and a cell per row.  A cell is an integer, a
    string or the missing value [NaN], which is different from every value
    and from itself. *)

Module Pandas.

Inductive label : Set :=
  | LInt (z : Z)
  | LStr (s : string).

Inductive value : Set :=
  | VInt (z : Z)
  | VStr (s : string)
  | NaN.

Record Index : Set := {
  name : option string;
  labels : list label
}.

Record Series : Set := {
  s_index : list label;
  s_values : list value
}.

Record DataFrame : Set := {
  index : Index;
  columns : list (string * list value)
}.

#[export] Instance label_eq_dec : EqDecision label.
Proof. solve_decision. Defined.

#[export] Instance value_eq_dec : EqDecision value.
Proof. solve_decision. Defined.

Definition label_eqb (a b : label) : bool :=
  match a, b with
  | LInt x, LInt y => x =? y
  | LStr x, LStr y => String.eqb x y
  | _, _ => false
  end.

(** [a == b] on two cells *)
Definition value_eqb (a b : value) : bool :=
  match a, b with
  | VInt x, VInt y => x =? y
  | VStr x, VStr y => String.eqb x y
  | _, _ => false
  end.

Definition value_of_label (l : label) : value :=
  match l with
  | LInt z => VInt z
  | LStr s => VStr s
  end.

(** The index of a frame that has none of its own: 0, 1, ..., n-1. *)
Definition RangeIndex (n : nat) : Index :=
  {| name := None; labels := (λ k, LInt (Z.of_nat k)) <$> seq 0 n |}.

Definition column_names (df : DataFrame) : list string := fst <$> columns df.

Fixpoint find_column (cols : list (string * list value)) (c : string)
  : option (list value) :=
  match cols with
  | [] => None
  | (c', vs) :: cols' => if String.eqb c' c then Some vs else find_column cols' c
  end.

(** [df.shape[0]] *)
Definition shape0 (df : DataFrame) : Z := py_len (labels (index df)).

(** [index == other]: itemwise, the lengths must match. *)
Definition index_eq (a b : Index) : result (list bool) :=
  if py_len (labels a) =? py_len (labels b)
  then Ok (zip_with label_eqb (labels a) (labels b))
  else Raise ValueError.

(** [df[c]] *)
Definition getitem (df : DataFrame) (c : string) : result Series :=
  match find_column (columns df) c with
  | Some vs => Ok {| s_index := labels (index df); s_values := vs |}
  | None => Raise KeyError
  end.

(** [df.c] *)
Definition getattr (df : DataFrame) (c : string) : result Series :=
  match find_column (columns df) c with
  | Some vs => Ok {| s_index := labels (index df); s_values := vs |}
  | None => Raise AttributeError
  end.

(** [s == other] and [s != other]: only identically-labelled series can be
    compared. *)
Definition series_eq (a b : Series) : result (list bool) :=
  if bool_decide (s_index a = s_index b)
  then Ok (zip_with value_eqb (s_values a) (s_values b))
  else Raise ValueError.

Definition series_ne (a b : Series) : result (list bool) :=
  if bool_decide (s_index a = s_index b)
  then Ok (zip_with (λ x y, negb (value_eqb x y)) (s_values a) (s_values b))
  else Raise ValueError.

(** [s.isna().sum()] *)
Definition isna_sum (s : Series) : Z :=
  py_sum ((λ v, if v is NaN then true else false) <$> s_values s).

Fixpoint select {A : Type} (mask : list bool) (l : list A) : list A :=
  match mask, l with
  | b :: mask', x :: l' => if b then x :: select mask' l' else select mask' l'
  | _, _ => []
  end.

(** [df[mask]]: the rows at which the mask holds. *)
Definition getitem_mask (df : DataFrame) (mask : list bool) : DataFrame :=
  {| index := {| name := name (index df);
                 labels := select mask (labels (index df)) |};
     columns := (λ '(c, vs), (c, select mask vs)) <$> columns df |}.

(** [df[[c1, c2, ...]]] *)
Definition getitem_list (df : DataFrame) (cs : list string) : result DataFrame :=
  cols ← mapM (λ c, match find_column (columns df) c with
                    | Some vs => Ok (c, vs)
                    | None => Raise KeyError
                    end) cs;
  Ok {| index := index df; columns := cols |}.

(** [df.rename(columns=mapping)] *)
Definition rename (df : DataFrame) (mapping : dict string) : DataFrame :=
  {| index := index df;
     columns := (λ '(c, vs), match dict_getitem mapping c with
                             | Ok c' => (c', vs)
                             | Raise _ => (c, vs)
                             end) <$> columns df |}.

(** [df.reset_index()]: the index becomes the first column, under its own
    name; an index without a name goes under [index], or under [level_0]
    when a column is called [index] already.  A name that is taken
    raises. *)
Definition reset_index (df : DataFrame) : result DataFrame :=
  let c := match name (index df) with
           | Some n => n
           | None => if bool_decide ("index"%string ∈ column_names df)
                     then "level_0"%string else "index"%string
           end in
  if bool_decide (c ∈ column_names df) then Raise ValueError
  else Ok {| index := RangeIndex (length (labels (index df)));
             columns := (c, value_of_label <$> labels (index df)) :: columns df |}.

(** [df.melt(id_vars=..., var_name=..., value_name=...)]: every column that
    is not an identifier column is a value column; the result has one row
    per row and value column, value column after value column. *)
Definition melt (df : DataFrame) (id_vars : list string)
    (var_name value_name : string) : result DataFrame :=
  ids ← mapM (λ c, match find_column (columns df) c with
                   | Some vs => Ok (c, vs)
                   | None => Raise KeyError
                   end) id_vars;
  let value_vars :=
    List.filter (λ '(c, _), negb (bool_decide (c ∈ id_vars))) (columns df) in
  let n := length (labels (index df)) in
  let k := length value_vars in
  Ok {| index := RangeIndex (k * n);
        columns :=
          ((λ '(c, vs), (c, concat (replicate k vs))) <$> ids)
          ++ [(var_name, value_vars ≫= (λ '(c, _), replicate n (VStr c)));
              (value_name, value_vars ≫= snd)] |}.

(** [s.str.split(sep, expand=True)]: one column per part, as many as the
    longest split has; a shorter row is padded, a row without a string is
    missing throughout.  A series without any string has no [.str]. *)
Definition str_split_expand (s : Series) (sep : ascii)
  : result (list (list value)) :=
  let parts := (λ v, if v is VStr x then Some (py_split sep x) else None)
                 <$> s_values s in
  if negb (forallb (λ p, if p is Some _ then false else true) parts)
     || bool_decide (parts = [])
  then
    let width := foldr (λ p w, if p is Some ws then Nat.max (length ws) w else w)
                   0%nat parts in
    Ok ((λ j, (λ p, match p with
                    | Some ws => from_option VStr NaN (ws !! j)
                    | None => NaN
                    end) <$> parts) <$> seq 0 width)
  else Raise AttributeError.

Fixpoint set_column (cols : list (string * list value)) (c : string)
    (vs : list value) : list (string * list value) :=
  match cols with
  | [] => [(c, vs)]
  | (c', vs') :: cols' =>
      if String.eqb c' c then (c, vs) :: cols'
      else (c', vs') :: set_column cols' c vs
  end.

(** [df[[c1, c2, ...]] = values]: as many columns as names. *)
Definition setitem_list (df : DataFrame) (cs : list string)
    (values : list (list value)) : result DataFrame :=
  if (length cs =? length values)%nat
  then Ok {| index := index df;
             columns := foldl (λ cols '(c, vs), set_column cols c vs)
                          (columns df) (zip cs values) |}
  else Raise ValueError.

(** [df.drop(c, axis=1)] *)
Definition drop_column (df : DataFrame) (c : string) : result DataFrame :=
  if bool_decide (c ∈ column_names df)
  then Ok {| index := index df;
             columns := List.filter (λ '(c', _), negb (String.eqb c' c))
                          (columns df) |}
  else Raise KeyError.

(** The rows of a frame, cell by cell in column order. *)
Definition to_records (df : DataFrame) : list (list value) :=
  (λ k, (λ '(_, vs), nth k vs NaN) <$> columns df)
    <$> seq 0 (length (labels (index df))).

End Pandas.

Import Pandas.

(** ** The merge notebook *)

Module Merge.

Definition corpora : list string :=
  ["rastros_ptbr"; "potec_de"; "provo_en"; "nicenboim_es"; "mecol1_du";
   "mecol2_enl2"]%string.

Definition MEASURE : string := "first-pass-regression-out".
Definition MODEL_MEASURE : string := "revisions".

(** The body of the loop over the human tables of a corpus. *)
Definition check_human_table (ref_index : Index) (ref_tokens : Series)
    (dataframe : DataFrame) : result unit :=
  same ← index_eq (index dataframe) ref_index;
  _ ← py_assert (py_all same);
  tokens ← getitem dataframe "Token";
  same ← series_eq tokens ref_tokens;
  _ ← py_assert (py_all same);
  tokens ← getattr dataframe "Token";
  py_assert (isna_sum tokens =? 0).

(** The body of the loop over the model tables of a corpus. *)
Definition check_model_table (corpus_name : string) (ref_index : Index)
    (ref_tokens : Series) (dataframe : DataFrame) : result unit :=
  same ← index_eq (index dataframe) ref_index;
  _ ← py_assert (py_all same);
  tokens ← getattr dataframe "Token";
  _ ← py_assert (isna_sum tokens =? 0);
  if String.eqb corpus_name "rastros_ptbr" then
    (* we changed the space encoding and a quotation mark in 3 tokens *)
    tokens ← getitem dataframe "Token";
    changed ← series_ne tokens ref_tokens;
    py_assert (shape0 (getitem_mask dataframe changed) =? 3)
  else if String.eqb corpus_name "potec_de" then
    (* we changed the ; in 2 tokens *)
    tokens ← getitem dataframe "Token";
    changed ← series_ne tokens ref_tokens;
    py_assert (shape0 (getitem_mask dataframe changed) =? 2)
  else
    tokens ← getitem dataframe "Token";
    same ← series_eq tokens ref_tokens;
    py_assert (py_all same).

(** The body of the validation loop.  [human_data] maps a corpus to its
    tables by measure, [model_data] maps a corpus and a model measure to its
    tables by model; both are keyed here by the corpus name, from which the
    notebook derives its key. *)
Definition validate_corpus
    (human_data : gmap string (dict DataFrame))
    (model_data : gmap string (gmap string (dict DataFrame)))
    (corpus_name : string) : result unit :=
  tables ← py_getitem human_data corpus_name;
  reference ← dict_getitem tables MEASURE;
  let ref_index := index reference in
  ref_tokens ← getitem reference "Token";
  _ ← for_each (check_human_table ref_index ref_tokens) (dict_values tables);
  by_measure ← py_getitem model_data corpus_name;
  by_model ← py_getitem by_measure MODEL_MEASURE;
  for_each (check_model_table corpus_name ref_index ref_tokens)
    (dict_values by_model).

(** The validation cell. *)
Definition validation
    (human_data : gmap string (dict DataFrame))
    (model_data : gmap string (gmap string (dict DataFrame))) : result unit :=
  for_each (validate_corpus human_data model_data) corpora.

(** The body of the loop over the plain revision columns of one corpus: the
    long table of one column and the path it is written to. *)
Definition melt_column (corpus : string) (data : DataFrame)
    (default_cols : list string) (col : string) : result (string * DataFrame) :=
  aux_data ← getitem_list data
    (List.filter (λ c, bool_decide (c ∈ default_cols) || String.eqb c col)
       (column_names data));
  (* keep only subject identifier *)
  mapping ← mapM (λ c, part ← py_index (py_split ":" c) 1; Ok (c, part))
    (List.filter (λ c, negb (String.eqb c col || String.eqb c "Token"))
       (column_names aux_data));
  let aux_data := rename aux_data mapping in
  (* standard name for the dependent variable *)
  let aux_data := rename aux_data [(col, "revision"%string)] in
  '(task, model) ← unpack2 (py_split "_" (py_replace "revision:" "" col));
  task ← (if py_in "large" task || py_in "chunk" task
          then py_index (py_split "-" task) 0
          else Ok task);
  aux_data ← reset_index aux_data;
  (* one human observation per row *)
  aux_data ← melt aux_data ["Identifier"; "Token"; "revision"]%string
    "subjectid" "regression";
  (* split identifier into two columns with text id and token position *)
  identifier ← getitem aux_data "Identifier";
  parts ← str_split_expand identifier "_";
  aux_data ← setitem_list aux_data
    ["n1"; "textid"; "n2"; "token_position"]%string parts;
  aux_data ← drop_column aux_data "n1";
  aux_data ← drop_column aux_data "n2";
  Ok ("preprocessed/models-humans/revisions-regressions/" +:+ corpus
        +:+ "_" +:+ model +:+ "_" +:+ task +:+ ".csv",
      aux_data).

(** The melt-and-split cell: the files it writes, in order. *)
Definition revisions_regressions (merged : dict DataFrame)
  : result (list (string * DataFrame)) :=
  files ← mapM (λ '(corpus, data),
      (* plain revisions columns *)
      let model_cols :=
        List.filter (λ c, negb (py_in "Subj" c) && negb (py_in "effective" c)
                          && negb (py_in "convenient" c)
                          && negb (py_in "Token" c))
          (column_names data) in
      (* other columns *)
      let default_cols :=
        List.filter (λ c, negb (py_in "revision" c)) (column_names data) in
      mapM (melt_column corpus data default_cols) model_cols) merged;
  Ok (concat files).

End Merge.

Import Merge.

(** ** The merge notebook: effective revisions and regressions *)

Module MergeEffective.

(** [s.fillna(v)] *)
Definition fillna (vs : list value) (v : value) : list value :=
  (λ x, if x is NaN then v else x) <$> vs.

(** [df[c].fillna(v, inplace=True)]: the column of the frame is filled in
    place. *)
Definition fillna_column (df : DataFrame) (c : string) (v : value)
  : result DataFrame :=
  match find_column (columns df) c with
  | Some vs => Ok {| index := index df;
                     columns := set_column (columns df) c (fillna vs v) |}
  | None => Raise KeyError
  end.

(** The body of the loop over the effective revision columns of one
    corpus. *)
Definition melt_effective_column (corpus : string) (data : DataFrame)
    (default_cols : list string) (col : string) : result (string * DataFrame) :=
  aux_data ← getitem_list data
    (List.filter (λ c, bool_decide (c ∈ default_cols) || String.eqb c col)
       (column_names data));
  mapping ← mapM (λ c, part ← py_index (py_split ":" c) 1; Ok (c, part))
    (List.filter (λ c, negb (String.eqb c col || String.eqb c "Token"))
       (column_names aux_data));
  let aux_data := rename aux_data mapping in
  let aux_data := rename aux_data [(col, "revision"%string)] in
  '(task, model) ← unpack2
    (py_split "_" (py_replace "effective-revision:" "" col));
  task ← (if py_in "large" task || py_in "chunk" task
          then py_index (py_split "-" task) 0
          else Ok task);
  aux_data ← reset_index aux_data;
  aux_data ← melt aux_data ["Identifier"; "Token"; "revision"]%string
    "subjectid" "regression";
  identifier ← getitem aux_data "Identifier";
  parts ← str_split_expand identifier "_";
  aux_data ← setitem_list aux_data
    ["n1"; "textid"; "n2"; "token_position"]%string parts;
  aux_data ← drop_column aux_data "n1";
  aux_data ← drop_column aux_data "n2";
  aux_data ← fillna_column aux_data "revision" (VInt 0);
  Ok ("preprocessed/models-humans/effective_revisions-regressions/" +:+ corpus
        +:+ "_" +:+ model +:+ "_" +:+ task +:+ ".csv",
      aux_data).

(** The cell of the effective revisions: the files it writes, in order. *)
Definition effective_revisions_regressions (merged : dict DataFrame)
  : result (list (string * DataFrame)) :=
  files ← mapM (λ '(corpus, data),
      let model_cols :=
        List.filter (λ c, py_in "effective" c) (column_names data) in
      let default_cols :=
        List.filter (λ c, negb (py_in "revision" c)) (column_names data) in
      mapM (melt_effective_column corpus data default_cols) model_cols) merged;
  Ok (concat files).

(** The column names of a model table as the loading cell renames them:
    a column of revisions or edits gets the model as a suffix. *)
Definition model_column_name (name model : string) : string :=
  if py_in "revision" name || py_in "edit" name
  then name +:+ "_" +:+ model
  else name.

(** The task and the model that the melt-and-split cell reads off the name
    of a plain revision column. *)
Definition task_and_model (col : string) : result (string * string) :=
  '(task, model) ← unpack2 (py_split "_" (py_replace "revision:" "" col));
  task ← (if py_in "large" task || py_in "chunk" task
          then py_index (py_split "-" task) 0
          else Ok task);
  Ok (task, model).

End MergeEffective.

Import MergeEffective.

(** ** Properties stated by the specification, in its own words *)

(** Two sequences differ elementwise somewhere: at some position both have
    a label and the labels are different. *)
Definition differ_elementwise (a b : list string) : Prop :=
  ∃ k x y, a !! k = Some x ∧ b !! k = Some y ∧ x ≠ y.

(** Two sequences are elementwise equal. *)
Definition elementwise_equal (a b : list string) : Prop :=
  ∀ k, a !! k = b !! k.

(** The count of positions at which [a] matches [b]. *)
Definition n_matches (a b : list string) : nat :=
  length (filter (λ k, a !! k = b !! k) (seq 0 (length a))).

(** The count of positions at which [a] matches [b] up to NUL characters
    at the end of a label. *)
Definition n_np_matches (a b : list string) : nat :=
  n_matches (Np.rstrip_nul <$> a) (Np.rstrip_nul <$> b).

(** A label that does not end in a NUL character. *)
Definition nul_free (label : string) : Prop := Np.rstrip_nul label = label.

(** Two sequences that differ at most in NUL characters at the end of
    their labels. *)
Definition same_up_to_nul (a b : list string) : Prop :=
  Np.rstrip_nul <$> a = Np.rstrip_nul <$> b.

(** The label [A] followed by a NUL character. *)
Definition A_nul : string := String "A" (String Np.NUL EmptyString).

(** Every column of a frame has one cell per row. *)
Definition well_formed (df : DataFrame) : Prop :=
  Forall (λ col, length col.2 = length (labels (index df))) (columns df).

#[export] Instance well_formed_dec (df : DataFrame) : Decision (well_formed df).
Proof. unfold well_formed. apply _. Defined.

(** The tables of all corpora are well formed. *)
Definition well_formed_data
    (human_data : gmap string (dict DataFrame))
    (model_data : gmap string (gmap string (dict DataFrame))) : Prop :=
  (∀ corpus_name tables df,
     human_data !! corpus_name = Some tables →
     df ∈ dict_values tables → well_formed df)
  ∧ (∀ corpus_name by_measure measure by_model df,
       model_data !! corpus_name = Some by_measure →
       by_measure !! measure = Some by_model →
       df ∈ dict_values by_model → well_formed df).

(** The [Token] column of a table. *)
Definition token_column (df : DataFrame) : option (list value) :=
  find_column (columns df) "Token".

(** The number of entries in which the token column [a] differs from the
    token column [b]. *)
Definition n_differences (a b : list value) : nat :=
  length (filter (λ k, a !! k ≠ b !! k) (seq 0 (length a))).

(** The documented number of tokens that the models' preprocessing changed:
    3 in one corpus, 2 in another, none elsewhere. *)
Definition documented_changes (corpus_name : string) : nat :=
  if String.eqb corpus_name "rastros_ptbr" then 3
  else if String.eqb corpus_name "potec_de" then 2
  else 0.

(** A human table agrees with the reference table: same identifiers, same
    token text, no token missing. *)
Definition human_table_ok (reference df : DataFrame) : Prop :=
  labels (index df) = labels (index reference)
  ∧ ∃ tokens,
      token_column df = Some tokens
      ∧ token_column reference = Some tokens
      ∧ NaN ∉ tokens.

(** A model table agrees with the reference table: same identifiers, no
    token missing, and a number of differing tokens that [accepted] admits. *)
Definition model_table_ok (accepted : nat → Prop) (reference df : DataFrame)
  : Prop :=
  labels (index df) = labels (index reference)
  ∧ ∃ tokens ref_tokens,
      token_column df = Some tokens
      ∧ token_column reference = Some ref_tokens
      ∧ (NaN ∉ tokens)
      ∧ accepted (n_differences tokens ref_tokens).

(** The tables of one corpus are consistent, for a given reading of the
    admitted number of token differences. *)
Definition corpus_ok (accepted : string → nat → Prop)
    (human_data : gmap string (dict DataFrame))
    (model_data : gmap string (gmap string (dict DataFrame)))
    (corpus_name : string) : Prop :=
  ∃ tables reference by_measure by_model,
    human_data !! corpus_name = Some tables
    ∧ dict_getitem tables MEASURE = Ok reference
    ∧ (∀ df, df ∈ dict_values tables → human_table_ok reference df)
    ∧ model_data !! corpus_name = Some by_measure
    ∧ by_measure !! MODEL_MEASURE = Some by_model
    ∧ (∀ df, df ∈ dict_values by_model →
         model_table_ok (accepted corpus_name) reference df).

(** The tolerance as the specification words it: at most the documented
    number of differences. *)
Definition within_tolerance (corpus_name : string) (n : nat) : Prop :=
  (n ≤ documented_changes corpus_name)%nat.

(** The tolerance as the notebook asserts it: the documented number of
    differences, no more and no fewer. *)
Definition exactly_documented (corpus_name : string) (n : nat) : Prop :=
  n = documented_changes corpus_name.

(** The merged table of the end-to-end example: two tokens, one subject, one
    model column. *)
Definition example_merged : DataFrame :=
  {| index := {| name := Some "Identifier"%string;
                 labels := [LStr "text_1_token_0"; LStr "text_1_token_1"] |};
     columns := [("Token", [VStr "The"; VStr "cat"]);
                 ("Subj:001", [VInt 0; VInt 1]);
                 ("revision:pos_modelA", [VInt 0; VInt 1])]%string |}.

(** A human table and a model table of two tokens that agree throughout. *)
Definition example_human : DataFrame :=
  {| index := {| name := Some "Identifier"%string;
                 labels := [LStr "text_1_token_0"; LStr "text_1_token_1"] |};
     columns := [("Token", [VStr "The"; VStr "cat"]);
                 ("Subj:001", [VInt 0; VInt 1])]%string |}.

Definition example_model : DataFrame :=
  {| index := {| name := Some "Identifier"%string;
                 labels := [LStr "text_1_token_0"; LStr "text_1_token_1"] |};
     columns := [("Token", [VStr "The"; VStr "cat"]);
                 ("revision:pos_modelA", [VInt 0; VInt 1])]%string |}.

(** All six corpora hold the same two tables. *)
Definition example_human_data : gmap string (dict DataFrame) :=
  list_to_map ((λ c, (c, [(MEASURE, example_human)])) <$> corpora).

Definition example_model_data : gmap string (gmap string (dict DataFrame)) :=
  list_to_map
    ((λ c, (c, {[ MODEL_MEASURE := [("modelA"%string, example_model)] ]}))
       <$> corpora).

(** Three tokens, and the same tokens after a preprocessing that changed
    all three, or the last two of them. *)
Definition three_tokens (tokens : list string) : DataFrame :=
  {| index := {| name := Some "Identifier"%string;
                 labels := [LStr "text_1_token_0"; LStr "text_1_token_1";
                            LStr "text_1_token_2"] |};
     columns := [("Token"%string, VStr <$> tokens)] |}.

(** Tables that differ in exactly the documented number of tokens: three
    in [rastros_ptbr], two in [potec_de], none elsewhere. *)
Definition documented_human_data : gmap string (dict DataFrame) :=
  list_to_map
    ((λ c, (c, [(MEASURE, three_tokens ["a;"; "b c"; "d"]%string)]))
       <$> corpora).

Definition documented_model_data : gmap string (gmap string (dict DataFrame)) :=
  list_to_map
    [("rastros_ptbr",
      {[ MODEL_MEASURE := [("hf-trf", three_tokens ["a,"; "b_c"; "e"])] ]});
     ("potec_de",
      {[ MODEL_MEASURE := [("hf-trf", three_tokens ["a,"; "b_c"; "d"])] ]});
     ("provo_en",
      {[ MODEL_MEASURE := [("hf-trf", three_tokens ["a;"; "b c"; "d"])] ]});
     ("nicenboim_es",
      {[ MODEL_MEASURE := [("hf-trf", three_tokens ["a;"; "b c"; "d"])] ]});
     ("mecol1_du",
      {[ MODEL_MEASURE := [("hf-trf", three_tokens ["a;"; "b c"; "d"])] ]});
     ("mecol2_enl2",
      {[ MODEL_MEASURE := [("hf-trf", three_tokens ["a;"; "b c"; "d"])] ]})]%string.

(** The run stops with an exception. *)
Definition raises (r : result unit) : Prop := ∃ e, r = Raise e.

(** The three classifiers in the order in which [get_revised_signal] calls
    them on the prefixes of a position other than the first. *)
Definition label_triple (previous current final : list string)
  : result (Z * Z * Z) :=
  revised ← is_revision previous current;
  conv_revised ← is_convenient_revision previous current final;
  effec_revised ← is_effective_revision previous current final;
  Ok (revised, conv_revised, effec_revised).

(** Every output of a trace extends the output of the step before. *)
Definition grows_by_extension (trace : list (list string)) : Prop :=
  ∀ j previous current,
    trace !! j = Some previous → trace !! S j = Some current →
    previous `prefix_of` current.

(** ** The incremental notebook: partial inputs, identifiers, the loop over
    one text *)

Module Incremental.

(** [str(j)] for an integer [j >= 0] *)
Definition py_str (j : nat) : string := pretty j.

(** [range(0, n)] *)
Definition py_range (n : Z) : list nat := seq 0 (Z.to_nat n).

(** [sep.join(l)] *)
Fixpoint py_join (sep : string) (l : list string) : string :=
  match l with
  | [] => EmptyString
  | [x] => x
  | x :: l' => x +:+ sep +:+ py_join sep l'
  end.

(** Get prefix up to token i.  [tokens] maps the position of a token,
    written in decimal, to the token. *)
Definition get_partial_input (tokens : dict string) (i : Z) : result string :=
  items ← mapM (λ j, dict_getitem tokens (py_str j)) (py_range (i + 1));
  Ok (py_join " " items).

(** [f'text_{text_idx}_token_{i}'], the row label of a token in the tables
    of both notebooks. *)
Definition identifier (text_idx i : string) : string :=
  "text_" +:+ text_idx +:+ "_token_" +:+ i.

(** The body of the loop over the texts of a corpus, for one task whose
    labels the function [tagger] reads off the model's parse of a partial
    input: first the sequence of partial outputs is appended to the trace
    of the text, then the signal of every token is computed.  The signals
    are returned with the identifiers of the rows they are stored in. *)
Definition append_outputs (tagger : string → list string)
    (tokens : dict string) (text_idx : string)
    (outputs : gmap string (list (list string))) (i : nat)
  : result (gmap string (list (list string))) :=
  partial_input ← get_partial_input tokens (Z.of_nat i);
  trace ← py_getitem outputs text_idx;
  Ok (<[text_idx := trace ++ [tagger partial_input]]> outputs).

Fixpoint for_fold {S A : Type} (body : S → A → result S) (s : S) (l : list A)
  : result S :=
  match l with
  | [] => Ok s
  | x :: l' => s' ← body s x; for_fold body s' l'
  end.

Definition process_text (tagger : string → list string)
    (outputs : gmap string (list (list string)))
    (text_idx : string) (tokens : dict string)
  : result (gmap string (list (list string)) * list (string * (Z * Z * Z))) :=
  (* first, get the sequence of partial outputs *)
  outputs ← for_fold (append_outputs tagger tokens text_idx) outputs
    (py_range (py_len tokens));
  (* now, loop over the sequence of partial outputs and check for revisions *)
  signals ← mapM (λ i,
      signal ← get_revised_signal outputs text_idx (Z.of_nat i);
      Ok (identifier text_idx (py_str i), signal))
    (py_range (py_len tokens));
  Ok (outputs, signals).

End Incremental.

Import Incremental.

(** No token of the text, up to position [i], contains a space. *)
Definition space_free (tokens : dict string) (i : Z) : Prop :=
  ∀ j token, (Z.of_nat j <= i) →
    dict_getitem tokens (py_str j) = Ok token → py_in " " token = false.

(** The tokens of a text are stored under the positions 0, 1, ..., n-1. *)
Definition positions_complete (tokens : dict string) : Prop :=
  ∀ j, (j < length tokens)%nat → ∃ token, dict_getitem tokens (py_str j) = Ok token.

(** The partial input that ends at position [j], when there is one. *)
Definition partial_input_at (tokens : dict string) (j : nat) : string :=
  match get_partial_input tokens (Z.of_nat j) with
  | Ok s => s
  | Raise _ => EmptyString
  end.


(** One row of a merged table with a single subject and the three columns
    of one model and task: the text and the position of the token, the
    token, the subject's regression, and the model's revision, convenient
    revision and effective revision. *)
Record token_row : Set := {
  row_text : string;
  row_position : string;
  row_token : string;
  row_regression : value;
  row_revision : value;
  row_convenient : value;
  row_effective : value
}.

Definition row_identifier (r : token_row) : string :=
  identifier (row_text r) (row_position r).

(** The merged table of the end-to-end example with any rows and with the
    three columns that the incremental notebook writes per task: subject
    [Subj:001], model [modelA], task [pos]. *)
Definition one_subject_table (rows : list token_row) : DataFrame :=
  {| index := {| name := Some "Identifier"%string;
                 labels := (λ r, LStr (row_identifier r)) <$> rows |};
     columns := [("Token"%string, (λ r, VStr (row_token r)) <$> rows);
                 ("Subj:001"%string, row_regression <$> rows);
                 ("revision:pos_modelA"%string, row_revision <$> rows);
                 ("convenient-revision:pos_modelA"%string,
                  row_convenient <$> rows);
                 ("effective-revision:pos_modelA"%string,
                  row_effective <$> rows)] |}.

(** Neither the text identifier nor the position of the row contains an
    underscore. *)
Definition underscore_free (r : token_row) : Prop :=
  py_in "_" (row_text r) = false ∧ py_in "_" (row_position r) = false.

(** The long table of a merged table with a single subject: one row per
    token, with the given revision labels and with the text identifier and
    the position of the token in columns of their own. *)
Definition long_table (revision : token_row → value) (rows : list token_row)
  : DataFrame :=
  {| index := RangeIndex (length rows);
     columns :=
       [("Identifier"%string, (λ r, VStr (row_identifier r)) <$> rows);
        ("Token"%string, (λ r, VStr (row_token r)) <$> rows);
        ("revision"%string, revision <$> rows);
        ("subjectid"%string, (λ _, VStr "001") <$> rows);
        ("regression"%string, row_regression <$> rows);
        ("textid"%string, (λ r, VStr (row_text r)) <$> rows);
        ("token_position"%string, (λ r, VStr (row_position r)) <$> rows)] |}.

(** A table of three rows with the given cells as its [Token] column. *)
Definition three_cells (tokens : list value) : DataFrame :=
  {| index := {| name := Some "Identifier"%string;
                 labels := [LStr "text_1_token_0"; LStr "text_1_token_1";
                            LStr "text_1_token_2"] |};
     columns := [("Token"%string, tokens)] |}.

(** The documented tables, but with a token missing in the model table of
    [provo_en]. *)
Definition gapped_model_data : gmap string (gmap string (dict DataFrame)) :=
  <[ "provo_en"%string :=
       {[ MODEL_MEASURE :=
            [("hf-trf"%string, three_cells [VStr "a;"; NaN; VStr "d"])] ]} ]>
    documented_model_data.

(** The documented tables, but with a second human measure for
    [rastros_ptbr] whose last token differs from the reference. *)
Definition two_measures_human_data : gmap string (dict DataFrame) :=
  <[ "rastros_ptbr"%string :=
       [(MEASURE, three_tokens ["a;"; "b c"; "d"]%string);
        ("total-fixation-count"%string,
         three_tokens ["a;"; "b c"; "e"]%string)] ]>
    documented_human_data.

(** The merged table of the end-to-end example for a variant of the task:
    the model column is [revision:pos-large_modelA]. *)
Definition example_variant : DataFrame :=
  {| index := {| name := Some "Identifier"%string;
                 labels := [LStr "text_1_token_0"; LStr "text_1_token_1"] |};
     columns := [("Token", [VStr "The"; VStr "cat"]);
                 ("Subj:001", [VInt 0; VInt 1]);
                 ("revision:pos-large_modelA", [VInt 0; VInt 1])]%string |}.

(** The long table of the end-to-end example. *)
Definition example_long : DataFrame :=
  {| index := RangeIndex 2;
     columns := [("Identifier", [VStr "text_1_token_0"; VStr "text_1_token_1"]);
                 ("Token", [VStr "The"; VStr "cat"]);
                 ("revision", [VInt 0; VInt 1]);
                 ("subjectid", [VStr "001"; VStr "001"]);
                 ("regression", [VInt 0; VInt 1]);
                 ("textid", [VStr "1"; VStr "1"]);
                 ("token_position", [VStr "0"; VStr "1"])]%string |}.

(* ===================================================================== *)
(** * Proofs *)

(** A closed decidable proposition, by evaluation of its decision. *)
Ltac by_decision :=
  lazymatch goal with
  | |- ?P =>
      let d := constr:(_ : Decision P) in
      apply (@bool_decide_unpack P d); vm_compute; exact I
  end.

(** ** Python helpers *)

Section PyFacts.

Lemma py_list_eq_true (a b : list string) :
  py_list_eq a b = true ↔ a = b.
Proof.
  revert b. induction a as [|x a IH]; intros [|y b]; simpl; try easy.
  destruct (String.eqb_spec x y) as [->|Hne].
  - rewrite IH. split; [intros ->; reflexivity | intros [= ->]; reflexivity].
  - split; [discriminate | intros [= ? ?]; contradiction].
Qed.

Lemma py_list_eq_false (a b : list string) :
  py_list_eq a b = false ↔ a ≠ b.
Proof.
  rewrite <- py_list_eq_true. destruct (py_list_eq a b); split; congruence.
Qed.

Lemma py_list_eq_refl (a : list string) : py_list_eq a a = true.
Proof. apply py_list_eq_true. reflexivity. Qed.

Lemma py_len_eqb {A B : Type} (a : list A) (b : list B) :
  (py_len a =? py_len b) = true ↔ length a = length b.
Proof. unfold py_len. rewrite Z.eqb_eq. lia. Qed.

Lemma py_len_eqb_false {A B : Type} (a : list A) (b : list B) :
  (py_len a =? py_len b) = false ↔ length a ≠ length b.
Proof. unfold py_len. rewrite Z.eqb_neq. lia. Qed.

Lemma py_index_in_range {A : Type} (l : list A) (i : Z) (x : A) :
  0 <= i → l !! Z.to_nat i = Some x → py_index l i = Ok x.
Proof.
  intros Hi Hx. unfold py_index, py_len.
  pose proof (lookup_lt_Some _ _ _ Hx) as Hlt.
  destruct (Z.ltb_spec i 0); [lia|].
  destruct (Z.ltb_spec i 0); [lia|].
  destruct (Z.leb_spec (Z.of_nat (length l)) i); [lia|].
  simpl. rewrite Hx. reflexivity.
Qed.

Lemma py_index_last {A : Type} (l : list A) (x : A) :
  last l = Some x → py_index l (-1) = Ok x.
Proof.
  intros Hx. unfold py_index, py_len.
  rewrite last_lookup in Hx.
  pose proof (lookup_lt_Some _ _ _ Hx) as Hlt.
  change (-1 <? 0) with true. cbv iota.
  destruct (Z.ltb_spec (Z.of_nat (length l) + -1) 0); [lia|].
  destruct (Z.leb_spec (Z.of_nat (length l)) (Z.of_nat (length l) + -1)); [lia|].
  simpl.
  replace (Z.to_nat (Z.of_nat (length l) + -1)) with (Nat.pred (length l)) by lia.
  rewrite Hx. reflexivity.
Qed.

End PyFacts.

(** ** Counting matches *)

Section Counting.

Lemma differ_of_neq (a b : list string) :
  length a = length b → a ≠ b → differ_elementwise a b.
Proof.
  revert b. induction a as [|x a IH]; intros [|y b] Hlen Hne;
    simpl in Hlen; try discriminate.
  - contradiction.
  - destruct (decide (x = y)) as [->|Hxy].
    + destruct (IH b) as (k & u & v & Hu & Hv & Huv).
      * congruence.
      * intros ->. contradiction.
      * exists (S k), u, v. auto.
    + exists 0%nat, x, y. auto.
Qed.

Lemma differ_elementwise_neq (a b : list string) :
  differ_elementwise a b → a ≠ b.
Proof. intros (k & x & y & Hx & Hy & Hxy) ->. congruence. Qed.

Lemma elementwise_equal_eq (a b : list string) :
  elementwise_equal a b ↔ a = b.
Proof.
  split; [apply list_eq | intros -> k; reflexivity].
Qed.

Lemma filter_matches_shift (x y : string) (a b : list string) (j n : nat) :
  length (filter (λ k, (x :: a) !! k = (y :: b) !! k) (seq (S j) n))
  = length (filter (λ k, a !! k = b !! k) (seq j n)).
Proof.
  revert j. induction n as [|n IH]; intros j; [reflexivity|].
  simpl seq. rewrite !filter_cons. simpl lookup.
  destruct (decide (a !! j = b !! j)); simpl; rewrite IH; reflexivity.
Qed.

Lemma py_sum_array_eq (a b : list string) :
  length a = length b →
  py_sum (Np.array_eq a b) = Z.of_nat (n_np_matches a b).
Proof.
  unfold n_np_matches, n_matches. revert b.
  induction a as [|x a IH]; intros [|y b] Hlen; simpl in Hlen;
    try discriminate; [reflexivity|].
  injection Hlen as Hlen. specialize (IH b Hlen).
  rewrite !fmap_cons. cbn [Np.array_eq py_sum length seq]. rewrite filter_cons.
  unfold Np.str_eq.
  destruct (String.eqb_spec (Np.rstrip_nul x) (Np.rstrip_nul y)) as [Heq|Hne].
  - rewrite decide_True by (simpl; congruence). simpl length.
    rewrite filter_matches_shift, IH. lia.
  - rewrite decide_False by (simpl; congruence).
    rewrite filter_matches_shift, IH. lia.
Qed.

Lemma n_matches_le (a b : list string) : (n_matches a b ≤ length a)%nat.
Proof.
  unfold n_matches.
  etransitivity; [apply length_filter|]. rewrite length_seq. reflexivity.
Qed.

Lemma n_matches_refl (a : list string) : n_matches a a = length a.
Proof.
  unfold n_matches.
  transitivity (length (seq 0 (length a))); [|apply length_seq].
  induction (seq 0 (length a)) as [|k ks IH]; [reflexivity|].
  rewrite filter_cons_True by reflexivity. simpl. congruence.
Qed.

Lemma n_np_matches_le (a b : list string) : (n_np_matches a b ≤ length a)%nat.
Proof.
  unfold n_np_matches.
  etransitivity; [apply n_matches_le|]. rewrite length_fmap. reflexivity.
Qed.

Lemma n_np_matches_refl (a : list string) : n_np_matches a a = length a.
Proof. unfold n_np_matches. rewrite n_matches_refl. apply length_fmap. Qed.

Lemma n_np_matches_same (a b : list string) :
  same_up_to_nul a b → n_np_matches a b = length a.
Proof.
  unfold same_up_to_nul, n_np_matches. intros <-.
  rewrite n_matches_refl. apply length_fmap.
Qed.

Lemma nul_free_fmap (a : list string) :
  Forall nul_free a → Np.rstrip_nul <$> a = a.
Proof.
  induction 1 as [|x a Hx _ IH]; [reflexivity|].
  rewrite fmap_cons, Hx, IH. reflexivity.
Qed.


End Counting.

(** ** The classifiers on aligned and on misaligned spans *)

Section Classifiers.

Implicit Types previous current final : list string.

Lemma is_revision_aligned previous current :
  length previous = length current →
  is_revision previous current = Ok (if decide (previous = current) then 0 else 1).
Proof.
  intros Hlen. unfold is_revision.
  rewrite (proj2 (py_len_eqb previous current) Hlen). simpl.
  destruct (decide (previous = current)) as [Heq|Hne].
  - rewrite (proj2 (py_list_eq_true _ _) Heq). reflexivity.
  - rewrite (proj2 (py_list_eq_false _ _) Hne). reflexivity.
Qed.

Lemma is_revision_misaligned previous current :
  length previous ≠ length current →
  is_revision previous current = Raise AssertionError.
Proof.
  intros Hlen. unfold is_revision.
  rewrite (proj2 (py_len_eqb_false previous current) Hlen). reflexivity.
Qed.

Lemma is_revision_returns previous current v :
  is_revision previous current = Ok v → length previous = length current.
Proof.
  intros H. destruct (decide (length previous = length current)) as [|Hne]; [assumption|].
  rewrite (is_revision_misaligned _ _ Hne) in H. discriminate.
Qed.

Lemma is_convenient_revision_aligned previous current final :
  length previous = length final → length previous = length current →
  is_convenient_revision previous current final
  = Ok (if decide (previous = current) then NA_LABEL
        else if decide (previous = final) then 0 else 1).
Proof.
  intros Hf Hc. unfold is_convenient_revision.
  rewrite (proj2 (py_len_eqb previous final) Hf). simpl.
  rewrite (is_revision_aligned _ _ Hc). simpl.
  destruct (decide (previous = current)); simpl; [reflexivity|].
  destruct (decide (previous = final)) as [Heq|Hne].
  - rewrite (proj2 (py_list_eq_true _ _) Heq). reflexivity.
  - rewrite (proj2 (py_list_eq_false _ _) Hne). reflexivity.
Qed.

Lemma is_convenient_revision_misaligned previous current final :
  length previous ≠ length final ∨ length previous ≠ length current →
  is_convenient_revision previous current final = Raise AssertionError.
Proof.
  intros H. unfold is_convenient_revision.
  destruct (decide (length previous = length final)) as [Hf|Hf].
  - destruct H as [H|H]; [contradiction|].
    rewrite (proj2 (py_len_eqb previous final) Hf). simpl.
    rewrite (is_revision_misaligned _ _ H). reflexivity.
  - rewrite (proj2 (py_len_eqb_false previous final) Hf). reflexivity.
Qed.

Lemma is_effective_revision_aligned previous current final :
  length previous = length final → length final = length current →
  is_effective_revision previous current final
  = Ok (if decide (previous = current) then NA_LABEL
        else if decide (n_np_matches previous final
                        < n_np_matches current final)%nat
             then 1 else 0).
Proof.
  intros Hf Hc. unfold is_effective_revision.
  rewrite (proj2 (py_len_eqb previous final) Hf).
  rewrite (proj2 (py_len_eqb final current) Hc). simpl.
  rewrite (is_revision_aligned previous current) by congruence. simpl.
  destruct (decide (previous = current)); simpl; [reflexivity|].
  rewrite !py_sum_array_eq by congruence.
  destruct (decide (n_np_matches previous final
                    < n_np_matches current final)%nat).
  - destruct (Z.leb_spec (Z.of_nat (n_np_matches current final))
                         (Z.of_nat (n_np_matches previous final)));
      [lia|reflexivity].
  - destruct (Z.leb_spec (Z.of_nat (n_np_matches current final))
                         (Z.of_nat (n_np_matches previous final)));
      [reflexivity|lia].
Qed.

Lemma is_effective_revision_misaligned previous current final :
  ¬ (length previous = length final ∧ length final = length current) →
  is_effective_revision previous current final = Raise AssertionError.
Proof.
  intros H. unfold is_effective_revision.
  destruct (decide (length previous = length final)) as [Hf|Hf].
  - rewrite (proj2 (py_len_eqb previous final) Hf).
    destruct (decide (length final = length current)) as [Hc|Hc].
    + exfalso. apply H. split; assumption.
    + rewrite (proj2 (py_len_eqb_false final current) Hc). reflexivity.
  - rewrite (proj2 (py_len_eqb_false previous final) Hf). reflexivity.
Qed.

End Classifiers.

(** The examples of the specification. *)

Example is_revision_same :
  is_revision ["NOUN"; "VERB"]%string ["NOUN"; "VERB"]%string = Ok 0.
Proof. reflexivity. Qed.

Example is_revision_changed :
  is_revision ["NOUN"; "VERB"]%string ["NOUN"; "ADJ"]%string = Ok 1.
Proof. reflexivity. Qed.

Example is_convenient_revision_no_revision :
  is_convenient_revision ["A"; "B"]%string ["A"; "B"]%string ["A"; "C"]%string
  = Ok NA_LABEL.
Proof. reflexivity. Qed.

Example is_convenient_revision_abandoned :
  is_convenient_revision ["A"; "B"]%string ["A"; "C"]%string ["A"; "B"]%string
  = Ok 0.
Proof. reflexivity. Qed.

Example is_effective_revision_improved :
  is_effective_revision ["A"; "B"]%string ["C"; "B"]%string ["C"; "D"]%string
  = Ok 1.
Proof. reflexivity. Qed.

Example get_revised_signal_second_step :
  get_revised_signal
    {[ "7"%string := [["DET"]; ["NOUN"; "NOUN"]; ["DET"; "NOUN"; "VERB"]]%string ]}
    "7"%string 1
  = Ok (1, 0, 0).
Proof. reflexivity. Qed.

Example get_revised_signal_third_step :
  get_revised_signal
    {[ "7"%string := [["DET"]; ["NOUN"; "NOUN"]; ["DET"; "NOUN"; "VERB"]]%string ]}
    "7"%string 2
  = Ok (1, 1, 1).
Proof. reflexivity. Qed.

(** C1. For sequences of equal length, [is_revision] returns 1 exactly when
    the two sequences differ at some position and 0 exactly when they are
    elementwise equal; on twice the same sequence it returns 0. *)
Theorem is_revision_correct (previous current : list string) :
  length previous = length current →
  (is_revision previous current = Ok 1 ↔ differ_elementwise previous current)
  ∧ (is_revision previous current = Ok 0 ↔ elementwise_equal previous current)
  ∧ is_revision previous previous = Ok 0.
Proof.
  intros Hlen. rewrite (is_revision_aligned _ _ Hlen).
  rewrite (is_revision_aligned previous previous eq_refl).
  rewrite elementwise_equal_eq.
  destruct (decide (previous = current)) as [Heq|Hne].
  - rewrite decide_True by reflexivity. repeat split; try easy.
    intros Hd. exfalso. exact (differ_elementwise_neq _ _ Hd Heq).
  - rewrite decide_True by reflexivity. repeat split; try easy.
    intros _. apply differ_of_neq; assumption.
Qed.

Lemma is_revision_correct_witness :
  is_revision ["NOUN"; "VERB"]%string ["NOUN"; "ADJ"]%string = Ok 1
  ∧ is_revision ["NOUN"; "VERB"]%string ["NOUN"; "VERB"]%string = Ok 0.
Proof.
  split.
  - apply (proj1 (is_revision_correct
                    ["NOUN"; "VERB"]%string ["NOUN"; "ADJ"]%string eq_refl)).
    exists 1%nat, "VERB"%string, "ADJ"%string.
    split; [reflexivity | split; [reflexivity | discriminate]].
  - apply (proj2 (proj2 (is_revision_correct
                    ["NOUN"; "VERB"]%string ["NOUN"; "ADJ"]%string eq_refl))).
Defined.

(** C2. For [previous], [current], [final] with [len(previous) == len(final)]
    and [len(previous) == len(current)], [is_convenient_revision] returns
    [NA_LABEL] whenever [is_revision(previous, current)] returns 0, whatever
    [final] is; otherwise it returns 0 if [previous == final] and 1 if
    [previous != final]. *)
Theorem is_convenient_revision_correct (previous current final : list string) :
  length previous = length final →
  length previous = length current →
  (is_revision previous current = Ok 0 →
   is_convenient_revision previous current final = Ok NA_LABEL)
  ∧ (is_revision previous current ≠ Ok 0 → previous = final →
     is_convenient_revision previous current final = Ok 0)
  ∧ (is_revision previous current ≠ Ok 0 → previous ≠ final →
     is_convenient_revision previous current final = Ok 1).
Proof.
  intros Hf Hc. rewrite (is_convenient_revision_aligned _ _ _ Hf Hc).
  rewrite (is_revision_aligned _ _ Hc).
  destruct (decide (previous = current)); repeat split; try easy.
  - intros _ Heq. rewrite decide_True by assumption. reflexivity.
  - intros _ Hne. rewrite decide_False by assumption. reflexivity.
Qed.

Lemma is_convenient_revision_correct_witness :
  is_convenient_revision ["A"; "B"]%string ["A"; "B"]%string ["A"; "C"]%string
  = Ok NA_LABEL.
Proof.
  apply (proj1 (is_convenient_revision_correct
                  ["A"; "B"]%string ["A"; "B"]%string ["A"; "C"]%string
                  eq_refl eq_refl)).
  reflexivity.
Defined.




(** C4. At token position 0 [get_revised_signal] returns
    [(0, NA_LABEL, NA_LABEL)], whatever the output trace holds (it is not
    even read). *)
Theorem get_revised_signal_position_0
    (outputs : gmap string (list (list string))) (text_idx : string) :
  get_revised_signal outputs text_idx 0 = Ok (0, NA_LABEL, NA_LABEL).
Proof.
  unfold get_revised_signal. rewrite Z.eqb_refl. reflexivity.
Qed.

(** C6. The classifiers fail on misaligned spans: [is_revision] raises when
    [len(previous) != len(current)], [is_convenient_revision] raises when
    [len(previous) != len(final)], [is_effective_revision] raises unless the
    three lengths are all equal; and whenever one of them returns a label,
    the lengths it compares were equal. *)
Theorem classifiers_fail_on_misaligned_spans :
  (∀ previous current,
     length previous ≠ length current →
     is_revision previous current = Raise AssertionError)
  ∧ (∀ previous current final,
       length previous ≠ length final →
       is_convenient_revision previous current final = Raise AssertionError)
  ∧ (∀ previous current final,
       ¬ (length previous = length final ∧ length final = length current) →
       is_effective_revision previous current final = Raise AssertionError)
  ∧ (∀ previous current v,
       is_revision previous current = Ok v →
       length previous = length current)
  ∧ (∀ previous current final v,
       is_convenient_revision previous current final = Ok v →
       length previous = length final ∧ length previous = length current)
  ∧ (∀ previous current final v,
       is_effective_revision previous current final = Ok v →
       length previous = length final ∧ length final = length current).
Proof.
  split; [exact is_revision_misaligned|].
  split; [intros; apply is_convenient_revision_misaligned; left; assumption|].
  split; [exact is_effective_revision_misaligned|].
  split; [exact is_revision_returns|].
  split.
  - intros previous current final v H.
    destruct (decide (length previous = length final)) as [Hf|Hf];
      [destruct (decide (length previous = length current)) as [Hc|Hc]|].
    + split; assumption.
    + rewrite is_convenient_revision_misaligned in H by (right; assumption).
      discriminate.
    + rewrite is_convenient_revision_misaligned in H by (left; assumption).
      discriminate.
  - intros previous current final v H.
    destruct (decide (length previous = length final ∧
                      length final = length current)) as [Hl|Hl]; [assumption|].
    rewrite (is_effective_revision_misaligned _ _ _ Hl) in H. discriminate.
Qed.

Lemma classifiers_fail_on_misaligned_spans_witness :
  is_revision ["A"; "B"]%string ["A"]%string = Raise AssertionError
  ∧ is_convenient_revision ["A"; "B"]%string ["A"; "C"]%string ["A"]%string
    = Raise AssertionError
  ∧ is_effective_revision ["A"; "B"]%string ["A"; "C"]%string ["A"]%string
    = Raise AssertionError.
Proof.
  destruct classifiers_fail_on_misaligned_spans as (Hr & Hc & He & _).
  split; [apply Hr; simpl; lia|].
  split; [apply Hc; simpl; lia|].
  apply He. simpl. lia.
Defined.

(** C7. For a trace recorded under [text_idx] and a position [i] with
    [1 <= i < len(trace)], [get_prefixes] returns the whole output of step
    [i-1] as [previous], the output of step [i] cut to its first
    [len(previous)] labels as [current], and the last output of the trace cut
    to its first [len(previous)] labels as [final]; labels that step [i]
    appended beyond the previous length are left out of the comparison. *)
Theorem get_prefixes_correct
    (outputs : gmap string (list (list string))) (text_idx : string)
    (trace : list (list string)) (i : Z) :
  outputs !! text_idx = Some trace →
  1 <= i < py_len trace →
  ∃ previous current final,
    trace !! Z.to_nat (i - 1) = Some previous
    ∧ trace !! Z.to_nat i = Some current
    ∧ last trace = Some final
    ∧ get_prefixes outputs text_idx i
      = Ok (previous, take (length previous) current,
            take (length previous) final)
    ∧ (∀ kept extra,
         current = kept ++ extra → length kept = length previous →
         take (length previous) current = kept).
Proof.
  intros Hlook [Hlo Hhi]. unfold py_len in Hhi.
  destruct (lookup_lt_is_Some_2 trace (Z.to_nat (i - 1))) as [previous Hp];
    [lia|].
  destruct (lookup_lt_is_Some_2 trace (Z.to_nat i)) as [current Hc]; [lia|].
  destruct (lookup_lt_is_Some_2 trace (Nat.pred (length trace)))
    as [final Hl]; [lia|].
  rewrite <- last_lookup in Hl.
  exists previous, current, final.
  repeat (split; [assumption|]).
  split.
  - unfold get_prefixes, py_getitem. rewrite Hlook. simpl.
    rewrite (py_index_in_range trace (i - 1) previous) by (lia || assumption).
    simpl. rewrite (py_index_in_range trace i current) by (lia || assumption).
    simpl. rewrite (py_index_last trace final Hl). simpl.
    unfold py_slice_to, py_len. rewrite Nat2Z.id. reflexivity.
  - intros kept extra -> Hk. rewrite <- Hk. apply take_app_length.
Qed.

Lemma get_prefixes_correct_witness :
  get_prefixes
    {[ "7"%string := [["DET"]; ["DET"; "NOUN"]; ["DET"; "ADJ"; "NOUN"; "PUNCT"]]%string ]}
    "7"%string 2
  = Ok (["DET"; "NOUN"], ["DET"; "ADJ"], ["DET"; "ADJ"])%string.
Proof.
  destruct (get_prefixes_correct
              {[ "7"%string := [["DET"]; ["DET"; "NOUN"];
                                ["DET"; "ADJ"; "NOUN"; "PUNCT"]]%string ]}
              "7"%string
              [["DET"]; ["DET"; "NOUN"]; ["DET"; "ADJ"; "NOUN"; "PUNCT"]]%string
              2)
    as (previous & current & final & Hp & Hc & Hl & Hget & _).
  - reflexivity.
  - unfold py_len. simpl. lia.
  - injection Hp as <-. injection Hc as <-. injection Hl as <-. exact Hget.
Defined.

(** C9. Every effective revision is a convenient revision: whenever
    [is_effective_revision] returns 1 on three sequences, so does
    [is_convenient_revision] (the lengths are equal as soon as the former
    returns). *)
Theorem effective_revision_is_convenient (previous current final : list string) :
  is_effective_revision previous current final = Ok 1 →
  is_convenient_revision previous current final = Ok 1.
Proof.
  intros Heff.
  destruct (decide (length previous = length final ∧
                    length final = length current)) as [[Hf Hc]|Hl].
  2: { rewrite (is_effective_revision_misaligned _ _ _ Hl) in Heff.
       discriminate. }
  rewrite (is_effective_revision_aligned _ _ _ Hf Hc) in Heff.
  rewrite (is_convenient_revision_aligned previous current final)
    by congruence.
  destruct (decide (previous = current)) as [|Hrev]; [assumption|].
  destruct (decide (n_np_matches previous final
                    < n_np_matches current final)%nat)
    as [Hlt|]; [|discriminate].
  destruct (decide (previous = final)) as [->|]; [|reflexivity].
  exfalso. rewrite n_np_matches_refl in Hlt.
  pose proof (n_np_matches_le current final). lia.
Qed.

Lemma effective_revision_is_convenient_witness :
  is_convenient_revision ["A"; "B"]%string ["C"; "B"]%string ["C"; "D"]%string
  = Ok 1.
Proof.
  apply (effective_revision_is_convenient
           ["A"; "B"]%string ["C"; "B"]%string ["C"; "D"]%string).
  reflexivity.
Defined.

(** C10. With [NA_LABEL = 0] the sentinel cannot be told from a genuine 0:
    [is_convenient_revision] returns 0 both on aligned inputs without a
    revision and on aligned inputs whose revision abandoned a prediction
    equal to [final]; [is_effective_revision] returns 0 both without a
    revision and after a revision that did not strictly increase the
    agreement with [final]. *)
Theorem na_label_indistinguishable_from_zero :
  NA_LABEL = 0
  ∧ (∃ previous current final,
       length previous = length current ∧ length previous = length final
       ∧ is_revision previous current = Ok 0
       ∧ is_convenient_revision previous current final = Ok 0)
  ∧ (∃ previous current final,
       length previous = length current ∧ length previous = length final
       ∧ is_revision previous current = Ok 1 ∧ previous = final
       ∧ is_convenient_revision previous current final = Ok 0)
  ∧ (∃ previous current final,
       length previous = length current ∧ length previous = length final
       ∧ is_revision previous current = Ok 0
       ∧ is_effective_revision previous current final = Ok 0)
  ∧ (∃ previous current final,
       length previous = length current ∧ length previous = length final
       ∧ is_revision previous current = Ok 1
       ∧ ¬ (n_matches previous final < n_matches current final)%nat
       ∧ is_effective_revision previous current final = Ok 0).
Proof.
  split; [reflexivity|].
  split.
  { exists ["A"; "B"]%string, ["A"; "B"]%string, ["A"; "C"]%string.
    repeat split. }
  split.
  { exists ["A"; "B"]%string, ["A"; "C"]%string, ["A"; "B"]%string.
    repeat split. }
  split.
  { exists ["A"; "B"]%string, ["A"; "B"]%string, ["A"; "C"]%string.
    repeat split. }
  exists ["A"; "B"]%string, ["A"; "C"]%string, ["A"; "B"]%string.
  repeat split. vm_compute. lia.
Qed.

(** ** The validation cell *)

Section Validation.

Lemma for_each_Ok {A : Type} (f : A → result unit) (l : list A) :
  for_each f l = Ok tt ↔ ∀ x, x ∈ l → f x = Ok tt.
Proof.
  induction l as [|x l IH]; simpl.
  - split; [intros _ y Hy; inversion Hy | reflexivity].
  - destruct (f x) as [[]|e] eqn:Hfx; simpl.
    + rewrite IH. split.
      * intros H y Hy. apply elem_of_cons in Hy as [->|Hy]; auto.
      * intros H y Hy. apply H. right. assumption.
    + split; [discriminate|].
      intros H. rewrite <- Hfx. apply H. left.
Qed.

Lemma result_unit_cases (r : result unit) : r = Ok tt ∨ ∃ e, r = Raise e.
Proof. destruct r as [[]|e]; [left | right; exists e]; reflexivity. Qed.

Lemma dict_getitem_values {V : Type} (d : dict V) (k : string) (v : V) :
  dict_getitem d k = Ok v → v ∈ dict_values d.
Proof.
  induction d as [|[k' v'] d IH]; simpl; [discriminate|].
  destruct (String.eqb k' k).
  - intros [= ->]. left.
  - intros H. right. apply IH, H.
Qed.

Lemma label_eqb_eq (a b : label) : label_eqb a b = true ↔ a = b.
Proof.
  destruct a, b; simpl; try (split; [discriminate | intros [=]]).
  - rewrite Z.eqb_eq. split; congruence.
  - rewrite String.eqb_eq. split; congruence.
Qed.

Lemma value_eqb_eq (a b : value) : a ≠ NaN → value_eqb a b = true ↔ a = b.
Proof.
  intros Ha. destruct a, b; simpl; try (split; [discriminate | intros [=]]);
    try contradiction.
  - rewrite Z.eqb_eq. split; congruence.
  - rewrite String.eqb_eq. split; congruence.
Qed.

Lemma value_eqb_NaN (b : value) : value_eqb NaN b = false.
Proof. reflexivity. Qed.

Lemma all_label_eqb (a b : list label) :
  length a = length b →
  py_all (zip_with label_eqb a b) = true ↔ a = b.
Proof.
  revert b. induction a as [|x a IH]; intros [|y b] Hlen; simpl in Hlen;
    try discriminate; [easy|].
  injection Hlen as Hlen. cbn [zip_with py_all forallb id].
  fold (py_all (zip_with label_eqb a b)).
  rewrite andb_true_iff, label_eqb_eq, (IH b Hlen).
  split; [intros [-> ->]; reflexivity | intros [= -> ->]; auto].
Qed.

Lemma all_value_eqb (a b : list value) :
  length a = length b →
  py_all (zip_with value_eqb a b) = true ↔ a = b ∧ NaN ∉ a.
Proof.
  revert b. induction a as [|x a IH]; intros [|y b] Hlen; simpl in Hlen;
    try discriminate.
  - split; [intros _; split; [reflexivity | apply not_elem_of_nil] | reflexivity].
  - injection Hlen as Hlen. cbn [zip_with py_all forallb id].
    fold (py_all (zip_with value_eqb a b)).
    rewrite andb_true_iff, (IH b Hlen), not_elem_of_cons.
    destruct (decide (x = NaN)) as [->|Hx].
    + rewrite value_eqb_NaN. split; [intros [[=] _] | intros [_ [[] _]]; reflexivity].
    + rewrite (value_eqb_eq x y Hx).
      split; [intros [-> [-> ?]]; auto | intros [[= -> ->] [_ ?]]; auto].
Qed.

Lemma isna_sum_zero (ix : list label) (vs : list value) :
  isna_sum {| s_index := ix; s_values := vs |} = 0 ↔ NaN ∉ vs.
Proof.
  unfold isna_sum. simpl.
  assert (Hnn : ∀ l : list value,
            0 <= py_sum ((λ v, if v is NaN then true else false) <$> l)).
  { induction l as [|v l IHl]; [simpl; lia|].
    rewrite fmap_cons. cbn [py_sum]. destruct v; lia. }
  induction vs as [|v vs IH].
  - split; [intros _; apply not_elem_of_nil | reflexivity].
  - rewrite fmap_cons. cbn [py_sum].
    rewrite not_elem_of_cons. specialize (Hnn vs). destruct v.
    + rewrite Z.add_0_l, IH. split; [intros ?; split; [discriminate|assumption] | tauto].
    + rewrite Z.add_0_l, IH. split; [intros ?; split; [discriminate|assumption] | tauto].
    + split; [lia | intros [[] _]; reflexivity].
Qed.

Lemma filter_differences_shift (x y : value) (a b : list value) (j n : nat) :
  length (filter (λ k, (x :: a) !! k ≠ (y :: b) !! k) (seq (S j) n))
  = length (filter (λ k, a !! k ≠ b !! k) (seq j n)).
Proof.
  revert j. induction n as [|n IH]; intros j; [reflexivity|].
  simpl seq. rewrite !filter_cons. simpl lookup.
  destruct (decide (a !! j ≠ b !! j)); simpl; rewrite IH; reflexivity.
Qed.

Lemma select_differences {A : Type} (a b : list value) (l : list A) :
  length a = length b → length l = length a → NaN ∉ a →
  length (select (zip_with (λ x y, negb (value_eqb x y)) a b) l)
  = n_differences a b.
Proof.
  unfold n_differences. revert b l.
  induction a as [|x a IH]; intros [|y b] [|z l] Hb Hl Hnan;
    simpl in Hb, Hl; try discriminate; [reflexivity|].
  injection Hb as Hb. injection Hl as Hl.
  apply not_elem_of_cons in Hnan as [Hx Hnan].
  specialize (IH b l Hb Hl Hnan).
  cbn [zip_with select length seq]. rewrite filter_cons.
  destruct (value_eqb x y) eqn:Hxy; simpl negb; cbv iota.
  - apply (value_eqb_eq x y (not_eq_sym Hx)) in Hxy as ->.
    rewrite decide_False by (intros H; apply H; reflexivity).
    rewrite filter_differences_shift. exact IH.
  - rewrite decide_True.
    + simpl length. rewrite filter_differences_shift, IH. reflexivity.
    + simpl. intros [= ->].
      rewrite (proj2 (value_eqb_eq y y (not_eq_sym Hx)) eq_refl) in Hxy.
      discriminate.
Qed.

Lemma n_differences_zero (a b : list value) :
  length a = length b → n_differences a b = 0%nat ↔ a = b.
Proof.
  unfold n_differences. revert b.
  induction a as [|x a IH]; intros [|y b] Hlen; simpl in Hlen;
    try discriminate; [easy|].
  injection Hlen as Hlen. cbn [length seq]. rewrite filter_cons.
  destruct (decide ((x :: a) !! 0%nat ≠ (y :: b) !! 0%nat)) as [Hne|Heq].
  - simpl length. split; [discriminate|].
    intros [= -> ->]. exfalso. apply Hne. reflexivity.
  - rewrite filter_differences_shift, (IH b Hlen).
    assert (x = y) as ->.
    { destruct (decide (x = y)) as [|Hxy]; [assumption|].
      exfalso. apply Heq. simpl. congruence. }
    split; [intros ->; reflexivity | intros [= ->]; reflexivity].
Qed.

End Validation.

Section Tables.

Lemma find_column_elem_of (cols : list (string * list value)) (c : string)
    (vs : list value) :
  find_column cols c = Some vs → (c, vs) ∈ cols.
Proof.
  induction cols as [|[c' vs'] cols IH]; simpl; [discriminate|].
  destruct (String.eqb_spec c' c) as [->|Hne].
  - intros [= ->]. left.
  - intros H. right. apply IH, H.
Qed.

Lemma well_formed_token (df : DataFrame) (tokens : list value) :
  well_formed df → token_column df = Some tokens →
  length tokens = length (labels (index df)).
Proof.
  intros Hwf Ht. apply find_column_elem_of in Ht.
  unfold well_formed in Hwf. rewrite Forall_forall in Hwf.
  apply (Hwf _ Ht).
Qed.

Lemma index_eq_same (a b : Index) :
  labels a = labels b →
  ∃ same, index_eq a b = Ok same ∧ py_all same = true.
Proof.
  intros Hl. unfold index_eq. rewrite Hl, Z.eqb_refl.
  eexists. split; [reflexivity|]. apply all_label_eqb; reflexivity.
Qed.

Lemma index_eq_differ (a b : Index) :
  labels a ≠ labels b →
  index_eq a b = Raise ValueError
  ∨ ∃ same, index_eq a b = Ok same ∧ py_all same = false.
Proof.
  intros Hl. unfold index_eq.
  destruct (Z.eqb_spec (py_len (labels a)) (py_len (labels b))) as [Hlen|Hlen];
    [right | left; reflexivity].
  eexists. split; [reflexivity|].
  destruct (py_all (zip_with label_eqb (labels a) (labels b))) eqn:Hall;
    [|reflexivity].
  exfalso. apply Hl. apply all_label_eqb; [|assumption].
  unfold py_len in Hlen. lia.
Qed.

Lemma check_human_table_Ok (reference df : DataFrame) (ref_tokens : list value) :
  well_formed df →
  length ref_tokens = length (labels (index reference)) →
  token_column reference = Some ref_tokens →
  check_human_table (index reference)
    {| s_index := labels (index reference); s_values := ref_tokens |} df
  = Ok tt
  ↔ human_table_ok reference df.
Proof.
  intros Hwf Hreflen Href. unfold human_table_ok, check_human_table.
  destruct (decide (labels (index df) = labels (index reference))) as [Hl|Hl].
  2: { split; [|intros [? _]; contradiction].
       destruct (index_eq_differ _ _ Hl) as [->|(same & -> & Hall)]; simpl;
         [discriminate|]. rewrite Hall. discriminate. }
  destruct (index_eq_same _ _ Hl) as (same & -> & Hall). simpl.
  rewrite Hall. simpl. unfold getitem, getattr.
  fold (token_column df). rewrite Href.
  destruct (token_column df) as [tokens|] eqn:Ht; simpl.
  2: { split; [discriminate | intros [_ (? & [=] & _)]]. }
  unfold series_eq. simpl. rewrite bool_decide_eq_true_2 by assumption. simpl.
  pose proof (well_formed_token df tokens Hwf Ht) as Hlen.
  destruct (py_all (zip_with value_eqb tokens ref_tokens)) eqn:Hcmp; simpl.
  - apply all_value_eqb in Hcmp as [-> Hnan]; [|congruence].
    rewrite (proj2 (isna_sum_zero _ _) Hnan). simpl.
    split; [intros _ | reflexivity].
    split; [assumption|]. exists ref_tokens. auto.
  - split; [discriminate|]. intros [_ (tokens' & [= <-] & [= <-] & Hnan)].
    rewrite (proj2 (all_value_eqb ref_tokens ref_tokens eq_refl)) in Hcmp
      by auto.
    discriminate.
Qed.

Lemma changed_count (reference df : DataFrame) (tokens ref_tokens : list value)
    (n : nat) :
  labels (index df) = labels (index reference) →
  length tokens = length (labels (index df)) →
  length ref_tokens = length (labels (index reference)) →
  token_column df = Some tokens →
  NaN ∉ tokens →
  (tokens ← getitem df "Token";
   changed ← series_ne tokens
     {| s_index := labels (index reference); s_values := ref_tokens |};
   py_assert (shape0 (getitem_mask df changed) =? Z.of_nat n)) = Ok tt
  ↔ n_differences tokens ref_tokens = n.
Proof.
  intros Hl Hlen Hreflen Ht Hnan. unfold getitem. fold (token_column df).
  rewrite Ht. simpl. unfold series_ne. simpl.
  rewrite bool_decide_eq_true_2 by assumption. simpl.
  unfold shape0, py_len. simpl.
  rewrite select_differences by congruence.
  destruct (Z.eqb_spec (Z.of_nat (n_differences tokens ref_tokens)) (Z.of_nat n));
    simpl; split; try discriminate; try reflexivity; lia.
Qed.

Lemma check_model_table_Ok (corpus_name : string) (reference df : DataFrame)
    (ref_tokens : list value) :
  well_formed df →
  length ref_tokens = length (labels (index reference)) →
  token_column reference = Some ref_tokens →
  check_model_table corpus_name (index reference)
    {| s_index := labels (index reference); s_values := ref_tokens |} df
  = Ok tt
  ↔ model_table_ok (exactly_documented corpus_name) reference df.
Proof.
  intros Hwf Hreflen Href.
  unfold model_table_ok, exactly_documented, check_model_table.
  destruct (decide (labels (index df) = labels (index reference))) as [Hl|Hl].
  2: { split; [|intros [? _]; contradiction].
       destruct (index_eq_differ _ _ Hl) as [->|(same & -> & Hall)]; simpl;
         [discriminate|]. rewrite Hall. discriminate. }
  destruct (index_eq_same _ _ Hl) as (same & -> & Hall). simpl.
  rewrite Hall. simpl. unfold getattr at 1.
  fold (token_column df). rewrite Href.
  destruct (token_column df) as [tokens|] eqn:Ht; simpl.
  2: { split; [discriminate | intros [_ (? & ? & [=] & _)]]. }
  pose proof (well_formed_token df tokens Hwf Ht) as Hlen.
  destruct (decide (NaN ∈ tokens)) as [Hnan|Hnan].
  { destruct (Z.eqb_spec (isna_sum {| s_index := labels (index df);
                                      s_values := tokens |}) 0) as [Hz|Hz].
    - apply isna_sum_zero in Hz. contradiction.
    - simpl. split; [discriminate|].
      intros [_ (tokens' & ? & [= <-] & _ & ? & _)]. contradiction. }
  rewrite (proj2 (isna_sum_zero _ _) Hnan). simpl.
  assert (Hmodel : ∀ n : nat,
    n_differences tokens ref_tokens = n ↔
    labels (index df) = labels (index reference)
    ∧ ∃ tokens' ref_tokens',
        Some tokens = Some tokens' ∧ Some ref_tokens = Some ref_tokens'
        ∧ (NaN ∉ tokens') ∧ n_differences tokens' ref_tokens' = n).
  { intros n. split.
    - intros Hn. split; [assumption|]. exists tokens, ref_tokens. auto.
    - intros [_ (tokens' & ref_tokens' & [= <-] & [= <-] & _ & Hn)]. exact Hn. }
  unfold documented_changes.
  destruct (String.eqb corpus_name "rastros_ptbr").
  { rewrite <- Hmodel. change 3 with (Z.of_nat 3).
    apply (changed_count reference df tokens ref_tokens 3); assumption. }
  destruct (String.eqb corpus_name "potec_de").
  { rewrite <- Hmodel. change 2 with (Z.of_nat 2).
    apply (changed_count reference df tokens ref_tokens 2); assumption. }
  rewrite <- Hmodel. unfold getitem. fold (token_column df). rewrite Ht. simpl.
  unfold series_eq. simpl. rewrite bool_decide_eq_true_2 by assumption. simpl.
  rewrite n_differences_zero by congruence.
  destruct (py_all (zip_with value_eqb tokens ref_tokens)) eqn:Hcmp; simpl.
  - apply all_value_eqb in Hcmp as [-> _]; [|congruence]. easy.
  - split; [discriminate|]. intros ->.
    rewrite (proj2 (all_value_eqb ref_tokens ref_tokens eq_refl)) in Hcmp by auto.
    discriminate.
Qed.

End Tables.

Section Corpora.

Context (human_data : gmap string (dict DataFrame))
        (model_data : gmap string (gmap string (dict DataFrame))).
Hypothesis Hwf : well_formed_data human_data model_data.

Lemma validate_corpus_Ok (corpus_name : string) :
  validate_corpus human_data model_data corpus_name = Ok tt
  ↔ corpus_ok exactly_documented human_data model_data corpus_name.
Proof.
  destruct Hwf as [Hwfh Hwfm].
  unfold validate_corpus, corpus_ok, py_getitem. split.
  - destruct (human_data !! corpus_name) as [tables|] eqn:Htab; simpl;
      [|discriminate].
    destruct (dict_getitem tables MEASURE) as [reference|] eqn:Href; simpl;
      [|discriminate].
    pose proof (dict_getitem_values _ _ _ Href) as Hin.
    unfold getitem. fold (token_column reference).
    destruct (token_column reference) as [ref_tokens|] eqn:Htok; simpl;
      [|discriminate].
    pose proof (well_formed_token _ _ (Hwfh _ _ _ Htab Hin) Htok) as Hlen.
    destruct (for_each _ (dict_values tables)) as [[]|] eqn:Hhum; simpl;
      [|discriminate].
    destruct (model_data !! corpus_name) as [by_measure|] eqn:Hbm; simpl;
      [|discriminate].
    destruct (by_measure !! MODEL_MEASURE) as [by_model|] eqn:Hmod; simpl;
      [|discriminate].
    intros Hmodels.
    exists tables, reference, by_measure, by_model.
    repeat (split; [assumption || reflexivity|]).
    split; [|split; [reflexivity|split; [exact Hmod|]]].
    + intros df Hdf. rewrite for_each_Ok in Hhum.
      apply (check_human_table_Ok reference df ref_tokens); eauto.
    + intros df Hdf. rewrite for_each_Ok in Hmodels.
      apply (check_model_table_Ok corpus_name reference df ref_tokens); eauto.
  - intros (tables & reference & by_measure & by_model
            & Htab & Href & Hhum & Hbm & Hmod & Hmodels).
    rewrite Htab. simpl. rewrite Href. simpl.
    pose proof (dict_getitem_values _ _ _ Href) as Hin.
    destruct (Hhum _ Hin) as [_ (ref_tokens & Htok & _ & _)].
    pose proof (well_formed_token _ _ (Hwfh _ _ _ Htab Hin) Htok) as Hlen.
    unfold getitem. fold (token_column reference). rewrite Htok. simpl.
    rewrite (proj2 (for_each_Ok _ (dict_values tables))).
    2: { intros df Hdf.
         apply (check_human_table_Ok reference df ref_tokens); eauto. }
    simpl. rewrite Hbm. simpl. rewrite Hmod. simpl.
    apply for_each_Ok. intros df Hdf.
    apply (check_model_table_Ok corpus_name reference df ref_tokens); eauto.
Qed.

Lemma validation_Ok :
  validation human_data model_data = Ok tt
  ↔ ∀ corpus_name, corpus_name ∈ corpora →
      corpus_ok exactly_documented human_data model_data corpus_name.
Proof.
  unfold validation. rewrite for_each_Ok.
  split; intros H c Hc; apply validate_corpus_Ok, H, Hc.
Qed.

End Corpora.

Lemma well_formed_data_intro
    (human_data : gmap string (dict DataFrame))
    (model_data : gmap string (gmap string (dict DataFrame))) :
  map_Forall (λ _ tables, Forall well_formed (dict_values tables)) human_data →
  map_Forall (λ _ by_measure,
    map_Forall (λ _ by_model, Forall well_formed (dict_values by_model))
      by_measure) model_data →
  well_formed_data human_data model_data.
Proof.
  intros Hh Hm. split.
  - intros c tables df Htab Hdf.
    specialize (Hh c tables Htab). simpl in Hh.
    rewrite Forall_forall in Hh. exact (Hh df Hdf).
  - intros c by_measure measure by_model df Hbm Hmod Hdf.
    specialize (Hm c by_measure Hbm measure by_model Hmod). simpl in Hm.
    rewrite Forall_forall in Hm. exact (Hm df Hdf).
Qed.

Lemma example_data_well_formed :
  well_formed_data example_human_data example_model_data.
Proof.
  apply well_formed_data_intro; by_decision.
Qed.

Lemma documented_data_well_formed :
  well_formed_data documented_human_data documented_model_data.
Proof.
  apply well_formed_data_intro; by_decision.
Qed.

(** C5 (amended). On well-formed tables the validation cell passes exactly
    when, in every corpus, the reference table of the measure exists, every
    human table has the reference identifiers and token text with no token
    missing, and every model table has the reference identifiers, no token
    missing and a token column that differs from the reference in exactly
    the documented number of entries: 3 in [rastros_ptbr], 2 in [potec_de],
    0 elsewhere.  In particular it raises when a table's identifiers differ
    from the reference identifiers, and when a model table's tokens differ
    from the reference in another number of entries than the documented
    one, more or fewer. *)
Theorem validation_accepts_exactly_documented
    (human_data : gmap string (dict DataFrame))
    (model_data : gmap string (gmap string (dict DataFrame))) :
  well_formed_data human_data model_data →
  (validation human_data model_data = Ok tt
   ↔ ∀ corpus_name, corpus_name ∈ corpora →
       corpus_ok exactly_documented human_data model_data corpus_name)
  ∧ (∀ corpus_name tables reference df,
       corpus_name ∈ corpora →
       human_data !! corpus_name = Some tables →
       dict_getitem tables MEASURE = Ok reference →
       df ∈ dict_values tables →
       labels (index df) ≠ labels (index reference) →
       raises (validation human_data model_data))
  ∧ (∀ corpus_name tables reference by_measure by_model df,
       corpus_name ∈ corpora →
       human_data !! corpus_name = Some tables →
       dict_getitem tables MEASURE = Ok reference →
       model_data !! corpus_name = Some by_measure →
       by_measure !! MODEL_MEASURE = Some by_model →
       df ∈ dict_values by_model →
       labels (index df) ≠ labels (index reference)
       ∨ (∃ tokens ref_tokens,
            token_column df = Some tokens
            ∧ token_column reference = Some ref_tokens
            ∧ n_differences tokens ref_tokens ≠ documented_changes corpus_name) →
       raises (validation human_data model_data)).
Proof.
  intros Hwf. pose proof (validation_Ok human_data model_data Hwf) as Hiff.
  split; [exact Hiff|]. split.
  - intros c tables reference df Hc Htab Href Hdf Hne.
    destruct (result_unit_cases (validation human_data model_data))
      as [Hok|Hraise]; [|exact Hraise].
    exfalso. apply Hne.
    destruct (proj1 Hiff Hok c Hc)
      as (tables' & reference' & _ & _ & Htab' & Href' & Hhum & _).
    rewrite Htab in Htab'. injection Htab' as <-.
    rewrite Href in Href'. injection Href' as <-.
    apply (Hhum df Hdf).
  - intros c tables reference by_measure by_model df Hc Htab Href Hbm Hmod Hdf
      Hbad.
    destruct (result_unit_cases (validation human_data model_data))
      as [Hok|Hraise]; [|exact Hraise].
    exfalso.
    destruct (proj1 Hiff Hok c Hc)
      as (tables' & reference' & by_measure' & by_model'
          & Htab' & Href' & _ & Hbm' & Hmod' & Hmodels).
    rewrite Htab in Htab'. injection Htab' as <-.
    rewrite Href in Href'. injection Href' as <-.
    rewrite Hbm in Hbm'. injection Hbm' as <-.
    rewrite Hmod in Hmod'. injection Hmod' as <-.
    destruct (Hmodels df Hdf) as [Hl (tokens & ref_tokens & Ht & Hr & _ & Hn)].
    destruct Hbad as [Hne|(tokens' & ref_tokens' & Ht' & Hr' & Hn')];
      [contradiction|].
    rewrite Ht in Ht'. injection Ht' as <-.
    rewrite Hr in Hr'. injection Hr' as <-.
    apply Hn'. exact Hn.
Qed.

Lemma validation_accepts_exactly_documented_witness :
  validation documented_human_data documented_model_data = Ok tt
  ∧ ∀ corpus_name, corpus_name ∈ corpora →
      corpus_ok exactly_documented documented_human_data documented_model_data
        corpus_name.
Proof.
  split; [vm_compute; reflexivity|].
  apply (proj1 (proj1 (validation_accepts_exactly_documented
                         documented_human_data documented_model_data
                         documented_data_well_formed))).
  vm_compute. reflexivity.
Defined.

(** C5, as stated, fails: six corpora whose model tables carry the very
    tokens of the human tables are within every tolerance (no token
    differs), and the validation cell raises on them, at [rastros_ptbr],
    where it asserts three changed tokens. *)
Lemma validation_rejects_within_tolerance :
  well_formed_data example_human_data example_model_data
  ∧ (∀ corpus_name, corpus_name ∈ corpora →
       corpus_ok within_tolerance example_human_data example_model_data
         corpus_name)
  ∧ validation example_human_data example_model_data = Raise AssertionError.
Proof.
  split; [exact example_data_well_formed|].
  split; [|vm_compute; reflexivity].
  intros c Hc.
  exists [(MEASURE, example_human)], example_human,
    {[ MODEL_MEASURE := [("modelA"%string, example_model)] ]},
    [("modelA"%string, example_model)].
  assert (Hhuman : ∀ df, df ∈ dict_values [(MEASURE, example_human)] →
                         human_table_ok example_human df).
  { intros df Hdf. apply list_elem_of_singleton in Hdf as ->.
    split; [reflexivity|]. exists [VStr "The"; VStr "cat"]%string.
    repeat split. by_decision. }
  assert (Hmodel : ∀ df, df ∈ dict_values [("modelA"%string, example_model)] →
                         model_table_ok (within_tolerance c) example_human df).
  { intros df Hdf. apply list_elem_of_singleton in Hdf as ->.
    split; [reflexivity|].
    exists [VStr "The"; VStr "cat"]%string, [VStr "The"; VStr "cat"]%string.
    repeat split; [by_decision|].
    unfold within_tolerance. change (0 ≤ documented_changes c)%nat. lia. }
  unfold corpora in Hc.
  repeat (apply elem_of_cons in Hc as [->|Hc]);
    [(split; [vm_compute; reflexivity|];
      split; [reflexivity|];
      split; [exact Hhuman|];
      split; [vm_compute; reflexivity|];
      split; [vm_compute; reflexivity|];
      exact Hmodel) ..|].
  inversion Hc.
Qed.

(** C8. On the merged table of the end-to-end example (identifiers
    [text_1_token_0] and [text_1_token_1], tokens [The] and [cat], subject
    column [Subj:001] with 0 and 1, model column [revision:pos_modelA] with
    0 and 1) the melt-and-split cell writes one table, for model [modelA]
    and task [pos], with the columns Identifier, Token, revision,
    subjectid, regression, textid, token_position and exactly the two rows
    (text_1_token_0, The, 0, 001, 0, 1, 0) and
    (text_1_token_1, cat, 1, 001, 1, 1, 1). *)
Theorem melt_example_two_rows (corpus : string) :
  ∃ melted,
    revisions_regressions [(corpus, example_merged)]
    = Ok [("preprocessed/models-humans/revisions-regressions/" +:+ corpus
             +:+ "_modelA_pos.csv", melted)]
    ∧ column_names melted
      = ["Identifier"; "Token"; "revision"; "subjectid"; "regression";
         "textid"; "token_position"]%string
    ∧ to_records melted
      = [[VStr "text_1_token_0"; VStr "The"; VInt 0; VStr "001"; VInt 0;
          VStr "1"; VStr "0"];
         [VStr "text_1_token_1"; VStr "cat"; VInt 1; VStr "001"; VInt 1;
          VStr "1"; VStr "1"]].
Proof.
  eexists. split; [reflexivity|]. split; reflexivity.
Qed.

(* ===================================================================== *)
(** * Further properties of the revision classifier *)

Section Signals.

Implicit Types previous current final : list string.
Implicit Types outputs : gmap string (list (list string)).

Lemma n_matches_lt (a b : list string) :
  length a = length b → a ≠ b → (n_matches a b < length a)%nat.
Proof.
  intros Hlen Hne.
  destruct (differ_of_neq a b Hlen Hne) as (k & x & y & Hx & Hy & Hxy).
  unfold n_matches.
  apply Nat.lt_le_trans with (length (seq 0 (length a)));
    [|rewrite length_seq; reflexivity].
  apply (length_filter_lt _ _ k).
  - apply elem_of_seq. pose proof (lookup_lt_Some _ _ _ Hx). lia.
  - rewrite Hx, Hy. congruence.
Qed.

Lemma n_np_matches_lt (a b : list string) :
  length a = length b → ¬ same_up_to_nul a b →
  (n_np_matches a b < length a)%nat.
Proof.
  intros Hlen Hne. unfold n_np_matches.
  rewrite <- (length_fmap Np.rstrip_nul a).
  apply n_matches_lt; [rewrite !length_fmap; exact Hlen | exact Hne].
Qed.

Lemma label_triple_aligned previous current final :
  length previous = length current → length previous = length final →
  label_triple previous current final
  = Ok (if decide (previous = current) then 0 else 1,
        if decide (previous = current) then NA_LABEL
        else if decide (previous = final) then 0 else 1,
        if decide (previous = current) then NA_LABEL
        else if decide (n_np_matches previous final
                        < n_np_matches current final)%nat
             then 1 else 0).
Proof.
  intros Hc Hf. unfold label_triple.
  rewrite (is_revision_aligned _ _ Hc). simpl.
  rewrite (is_convenient_revision_aligned _ _ _ Hf Hc). simpl.
  rewrite (is_effective_revision_aligned previous current final) by congruence.
  reflexivity.
Qed.

Lemma label_triple_misaligned previous current final :
  length previous ≠ length current ∨ length previous ≠ length final →
  label_triple previous current final = Raise AssertionError.
Proof.
  intros H. unfold label_triple.
  destruct (decide (length previous = length current)) as [Hc|Hc].
  - destruct H as [H|H]; [contradiction|].
    rewrite (is_revision_aligned _ _ Hc). simpl.
    rewrite is_convenient_revision_misaligned by (left; assumption).
    reflexivity.
  - rewrite (is_revision_misaligned _ _ Hc). reflexivity.
Qed.

Lemma get_revised_signal_step outputs text_idx i previous current final :
  i ≠ 0 →
  get_prefixes outputs text_idx i = Ok (previous, current, final) →
  get_revised_signal outputs text_idx i = label_triple previous current final.
Proof.
  intros Hi Hp. unfold get_revised_signal.
  destruct (Z.eqb_spec i 0); [contradiction|]. rewrite Hp. reflexivity.
Qed.

Lemma get_revised_signal_raise outputs text_idx i e :
  i ≠ 0 →
  get_prefixes outputs text_idx i = Raise e →
  get_revised_signal outputs text_idx i = Raise e.
Proof.
  intros Hi Hp. unfold get_revised_signal.
  destruct (Z.eqb_spec i 0); [contradiction|]. rewrite Hp. reflexivity.
Qed.

Lemma get_prefixes_lookup outputs text_idx trace i previous current last_output :
  outputs !! text_idx = Some trace →
  1 <= i →
  trace !! Z.to_nat (i - 1) = Some previous →
  trace !! Z.to_nat i = Some current →
  last trace = Some last_output →
  get_prefixes outputs text_idx i
  = Ok (previous, take (length previous) current,
        take (length previous) last_output).
Proof.
  intros Hlook Hi Hp Hc Hl. unfold get_prefixes, py_getitem.
  rewrite Hlook. simpl.
  rewrite (py_index_in_range trace (i - 1) previous) by (lia || assumption).
  simpl. rewrite (py_index_in_range trace i current) by (lia || assumption).
  simpl. rewrite (py_index_last trace last_output Hl). simpl.
  unfold py_slice_to, py_len. rewrite Nat2Z.id. reflexivity.
Qed.

Lemma py_index_out_of_range {A : Type} (l : list A) (i : Z) :
  py_len l <= i → py_index l i = Raise IndexError.
Proof.
  intros Hi. unfold py_index. unfold py_len in *.
  destruct (Z.ltb_spec i 0); [lia|].
  destruct (Z.ltb_spec i 0); [lia|].
  destruct (Z.leb_spec (Z.of_nat (length l)) i); [reflexivity|lia].
Qed.

Lemma py_index_cases {A : Type} (l : list A) (i : Z) :
  (∃ x, py_index l i = Ok x) ∨ py_index l i = Raise IndexError.
Proof.
  unfold py_index.
  destruct (_ || _); [right; reflexivity|].
  destruct (l !! _); [left; eexists; reflexivity | right; reflexivity].
Qed.

End Signals.

(** X1. [is_revision] does not depend on the order of its two arguments:
    it returns, or raises, the same way on [(previous, current)] and on
    [(current, previous)]. *)
Theorem is_revision_symmetric (previous current : list string) :
  is_revision previous current = is_revision current previous.
Proof.
  destruct (decide (length previous = length current)) as [Hlen|Hlen].
  - rewrite (is_revision_aligned _ _ Hlen).
    rewrite (is_revision_aligned current previous) by congruence.
    destruct (decide (previous = current)) as [->|Hne].
    + rewrite decide_True by reflexivity. reflexivity.
    + rewrite decide_False by congruence. reflexivity.
  - rewrite (is_revision_misaligned _ _ Hlen).
    rewrite (is_revision_misaligned current previous) by congruence.
    reflexivity.
Qed.

(** X2. A revision that lands on the final labels is convenient, and it is
    effective exactly when it changed more than NUL characters at the end
    of labels: on aligned spans with [previous != current] and
    [current == final], [is_convenient_revision] returns 1, and
    [is_effective_revision] returns 1 unless [previous] and [current] are
    the same up to such NUL characters, in which case it returns 0. *)
Theorem revision_reaching_final (previous current final : list string) :
  length previous = length current →
  previous ≠ current →
  current = final →
  is_convenient_revision previous current final = Ok 1
  ∧ (¬ same_up_to_nul previous current →
     is_effective_revision previous current final = Ok 1)
  ∧ (same_up_to_nul previous current →
     is_effective_revision previous current final = Ok 0).
Proof.
  intros Hlen Hrev <-.
  rewrite (is_convenient_revision_aligned _ _ _ Hlen Hlen).
  rewrite (is_effective_revision_aligned _ _ _ Hlen eq_refl).
  rewrite n_np_matches_refl.
  split; [|split].
  - repeat case_decide; first [contradiction | reflexivity].
  - intros Hdiff. pose proof (n_np_matches_lt _ _ Hlen Hdiff) as Hlt.
    repeat case_decide; first [contradiction | lia | reflexivity].
  - intros Hsame. pose proof (n_np_matches_same _ _ Hsame) as Heq.
    repeat case_decide; first [contradiction | lia | reflexivity].
Qed.

Lemma revision_reaching_final_witness :
  (is_convenient_revision ["X"; "B"]%string ["A"; "B"]%string ["A"; "B"]%string
   = Ok 1
   ∧ is_effective_revision ["X"; "B"]%string ["A"; "B"]%string ["A"; "B"]%string
     = Ok 1)
  ∧ is_effective_revision ["A"%string] [A_nul] [A_nul] = Ok 0.
Proof.
  assert (Hne : ["X"; "B"]%string ≠ ["A"; "B"]%string) by discriminate.
  assert (Hnul : ["A"%string] ≠ [A_nul]) by discriminate.
  destruct (revision_reaching_final
              ["X"; "B"]%string ["A"; "B"]%string ["A"; "B"]%string
              eq_refl Hne eq_refl) as (Hconv & Heff & _).
  destruct (revision_reaching_final ["A"%string] [A_nul] [A_nul]
              eq_refl Hnul eq_refl) as (_ & _ & Hsame).
  split; [split|].
  - exact Hconv.
  - apply Heff. discriminate.
  - apply Hsame. reflexivity.
Defined.

(** X3. A revision of labels that were already the final ones is neither
    convenient nor effective: on aligned spans with [previous == final] and
    [previous != current] the two classifiers return 0. *)
Theorem revision_leaving_final (previous current final : list string) :
  length previous = length current →
  previous ≠ current →
  previous = final →
  is_convenient_revision previous current final = Ok 0
  ∧ is_effective_revision previous current final = Ok 0.
Proof.
  intros Hlen Hrev <-.
  rewrite (is_convenient_revision_aligned previous current previous)
    by congruence.
  rewrite (is_effective_revision_aligned previous current previous)
    by congruence.
  rewrite n_np_matches_refl.
  pose proof (n_np_matches_le current previous) as Hle.
  repeat case_decide; first [contradiction | lia | split; reflexivity].
Qed.

Lemma revision_leaving_final_witness :
  is_convenient_revision ["A"; "B"]%string ["A"; "C"]%string ["A"; "B"]%string
  = Ok 0
  ∧ is_effective_revision ["A"; "B"]%string ["A"; "C"]%string ["A"; "B"]%string
    = Ok 0.
Proof.
  apply (revision_leaving_final
           ["A"; "B"]%string ["A"; "C"]%string ["A"; "B"]%string);
    [reflexivity | discriminate | reflexivity].
Defined.

Section Traces.

Implicit Types outputs : gmap string (list (list string)).
Implicit Types trace : list (list string).

Lemma label_triple_ordered (previous current final : list string)
    (revised conv effec : Z) :
  label_triple previous current final = Ok (revised, conv, effec) →
  0 <= effec <= conv ∧ conv <= revised <= 1.
Proof.
  intros H.
  destruct (decide (length previous = length current)) as [Hc|Hc];
    [destruct (decide (length previous = length final)) as [Hf|Hf]|].
  - rewrite (label_triple_aligned _ _ _ Hc Hf) in H.
    injection H as <- <- <-. unfold NA_LABEL.
    pose proof (n_np_matches_le current final) as Hle.
    repeat case_decide; subst; try rewrite n_np_matches_refl in *; lia.
  - rewrite label_triple_misaligned in H by (right; assumption). discriminate.
  - rewrite label_triple_misaligned in H by (left; assumption). discriminate.
Qed.

Lemma grows_by_extension_le trace (j k : nat) (a b : list string) :
  grows_by_extension trace → (j ≤ k)%nat →
  trace !! j = Some a → trace !! k = Some b → a `prefix_of` b.
Proof.
  intros Hgrow Hjk Ha. revert b.
  induction Hjk as [|k Hjk IH]; intros b Hb.
  - rewrite Ha in Hb. injection Hb as <-. reflexivity.
  - destruct (lookup_lt_is_Some_2 trace k) as [c Hc].
    { pose proof (lookup_lt_Some _ _ _ Hb). lia. }
    transitivity c; [apply IH, Hc | apply (Hgrow k); assumption].
Qed.

Lemma take_prefix_of (a b : list string) :
  a `prefix_of` b → take (length a) b = a.
Proof. intros [k ->]. apply take_app_length. Qed.

End Traces.

(** X4. Whenever [get_revised_signal] returns a triple, its three labels
    are 0 or 1 and ordered: an effective revision is a convenient one and a
    convenient revision is a revision. *)
Theorem signal_labels_ordered
    (outputs : gmap string (list (list string))) (text_idx : string) (i : Z)
    (revised conv effec : Z) :
  get_revised_signal outputs text_idx i = Ok (revised, conv, effec) →
  0 <= effec <= conv ∧ conv <= revised <= 1.
Proof.
  intros H. destruct (decide (i = 0)) as [->|Hi].
  - unfold get_revised_signal in H. simpl in H.
    injection H as <- <- <-. unfold NA_LABEL. lia.
  - destruct (get_prefixes outputs text_idx i) as [[[p c] f]|e] eqn:Hp.
    + rewrite (get_revised_signal_step _ _ _ _ _ _ Hi Hp) in H.
      exact (label_triple_ordered _ _ _ _ _ _ H).
    + rewrite (get_revised_signal_raise _ _ _ _ Hi Hp) in H. discriminate.
Qed.

Lemma signal_labels_ordered_witness :
  get_revised_signal
    {[ "7"%string := [["DET"]; ["NOUN"; "NOUN"]; ["DET"; "NOUN"; "VERB"]]%string ]}
    "7"%string 2
  = Ok (1, 1, 1)
  ∧ (0 <= 1 <= 1 ∧ 1 <= 1 <= 1).
Proof.
  split; [reflexivity|].
  apply (signal_labels_ordered
           {[ "7"%string := [["DET"]; ["NOUN"; "NOUN"];
                             ["DET"; "NOUN"; "VERB"]]%string ]}
           "7"%string 2 1 1 1).
  reflexivity.
Defined.

(** X5. At a position [i >= 1] inside the trace, [get_revised_signal]
    returns a triple exactly when neither the output of step [i] nor the
    last output of the trace is shorter than the output of step [i-1];
    otherwise it raises [AssertionError]. *)
Theorem get_revised_signal_defined
    (outputs : gmap string (list (list string))) (text_idx : string)
    (trace : list (list string)) (i : Z)
    (previous current last_output : list string) :
  outputs !! text_idx = Some trace →
  1 <= i →
  trace !! Z.to_nat (i - 1) = Some previous →
  trace !! Z.to_nat i = Some current →
  last trace = Some last_output →
  ((length previous ≤ length current)%nat
   ∧ (length previous ≤ length last_output)%nat →
   ∃ triple, get_revised_signal outputs text_idx i = Ok triple)
  ∧ (¬ ((length previous ≤ length current)%nat
        ∧ (length previous ≤ length last_output)%nat) →
     get_revised_signal outputs text_idx i = Raise AssertionError).
Proof.
  intros Hlook Hi Hp Hc Hl.
  rewrite (get_revised_signal_step outputs text_idx i _ _ _ ltac:(lia)
             (get_prefixes_lookup _ _ _ _ _ _ _ Hlook Hi Hp Hc Hl)).
  split.
  - intros [Hcur Hlast]. eexists.
    apply label_triple_aligned; rewrite length_take; lia.
  - intros Hshort. apply label_triple_misaligned.
    rewrite !length_take. lia.
Qed.

Lemma get_revised_signal_defined_witness :
  get_revised_signal
    {[ "7"%string := [["DET"; "NOUN"]; ["PROPN"]; ["PROPN"; "VERB"]]%string ]}
    "7"%string 1
  = Raise AssertionError.
Proof.
  refine (proj2 (get_revised_signal_defined
            {[ "7"%string := [["DET"; "NOUN"]; ["PROPN"];
                              ["PROPN"; "VERB"]]%string ]}
            "7"%string
            [["DET"; "NOUN"]; ["PROPN"]; ["PROPN"; "VERB"]]%string 1
            ["DET"; "NOUN"]%string ["PROPN"]%string ["PROPN"; "VERB"]%string
            eq_refl _ eq_refl eq_refl eq_refl) _).
  - lia.
  - simpl. lia.
Defined.

(** X6. At the last position of a trace (when it is not the first), the
    current and the final prefix are the same labels, so a revision there
    is always convenient: whenever [get_revised_signal] returns, it returns
    [(0, 0, 0)], [(1, 1, 1)] or [(1, 1, 0)].  On a trace in which no label
    ends in a NUL character the signal is all-or-nothing: [(0, 0, 0)] or
    [(1, 1, 1)]. *)
Theorem last_position_signal
    (outputs : gmap string (list (list string))) (text_idx : string)
    (trace : list (list string)) (i : Z) (triple : Z * Z * Z) :
  outputs !! text_idx = Some trace →
  1 <= i →
  i = py_len trace - 1 →
  get_revised_signal outputs text_idx i = Ok triple →
  (triple = (0, 0, 0) ∨ triple = (1, 1, 1) ∨ triple = (1, 1, 0))
  ∧ (Forall (Forall nul_free) trace →
     triple = (0, 0, 0) ∨ triple = (1, 1, 1)).
Proof.
  intros Hlook Hi Hlast. unfold py_len in Hlast.
  destruct (lookup_lt_is_Some_2 trace (Z.to_nat (i - 1))) as [previous Hp];
    [lia|].
  destruct (lookup_lt_is_Some_2 trace (Z.to_nat i)) as [current Hc]; [lia|].
  assert (Hl : last trace = Some current).
  { rewrite last_lookup. rewrite <- Hc. f_equal. lia. }
  rewrite (get_revised_signal_step outputs text_idx i _ _ _ ltac:(lia)
             (get_prefixes_lookup _ _ _ _ _ _ _ Hlook Hi Hp Hc Hl)).
  set (cur := take (length previous) current).
  destruct (decide (length previous = length cur)) as [Hlen|Hlen].
  2: { rewrite label_triple_misaligned by (left; assumption). discriminate. }
  rewrite (label_triple_aligned _ _ _ Hlen Hlen). intros [= <-].
  unfold NA_LABEL. rewrite n_np_matches_refl.
  destruct (decide (previous = cur)) as [|Hne]; [split; intros; left; reflexivity|].
  destruct (decide (Np.rstrip_nul <$> previous = Np.rstrip_nul <$> cur))
    as [Hsame|Hdiff].
  - rewrite (n_np_matches_same _ _ Hsame).
    rewrite decide_False by lia. split; [right; right; reflexivity|].
    intros Hfree. exfalso. apply Hne.
    rewrite Forall_lookup in Hfree.
    pose proof (Hfree _ _ Hp) as Hfp. pose proof (Hfree _ _ Hc) as Hfc.
    unfold same_up_to_nul in Hsame.
    rewrite (nul_free_fmap previous Hfp) in Hsame.
    rewrite (nul_free_fmap cur) in Hsame; [exact Hsame|].
    unfold cur. apply Forall_take. exact Hfc.
  - pose proof (n_np_matches_lt _ _ Hlen Hdiff).
    rewrite decide_True by lia.
    split; [right; left; reflexivity | intros _; right; reflexivity].
Qed.

Lemma last_position_signal_witness :
  get_revised_signal
    {[ "7"%string := [["DET"]; ["NOUN"; "NOUN"]; ["DET"; "NOUN"; "VERB"]]%string ]}
    "7"%string 2
  = Ok (1, 1, 1)
  ∧ ((1, 1, 1) = (0, 0, 0) ∨ (1, 1, 1) = (1, 1, 1)).
Proof.
  split; [reflexivity|].
  destruct (last_position_signal
              {[ "7"%string := [["DET"]; ["NOUN"; "NOUN"];
                                ["DET"; "NOUN"; "VERB"]]%string ]}
              "7"%string
              [["DET"]; ["NOUN"; "NOUN"]; ["DET"; "NOUN"; "VERB"]]%string 2
              (1, 1, 1)) as [_ Hfree];
    [reflexivity | lia | reflexivity | reflexivity |].
  apply Hfree. repeat constructor.
Defined.

(** X7. A tagger whose every output extends its output of the step before
    never revises: at every position of such a trace [get_revised_signal]
    returns [(0, NA_LABEL, NA_LABEL)]. *)
Theorem extension_never_revises
    (outputs : gmap string (list (list string))) (text_idx : string)
    (trace : list (list string)) (i : Z) :
  outputs !! text_idx = Some trace →
  grows_by_extension trace →
  0 <= i < py_len trace →
  get_revised_signal outputs text_idx i = Ok (0, NA_LABEL, NA_LABEL).
Proof.
  intros Hlook Hgrow [Hlo Hhi]. unfold py_len in Hhi.
  destruct (decide (i = 0)) as [->|Hi]; [reflexivity|].
  destruct (lookup_lt_is_Some_2 trace (Z.to_nat (i - 1))) as [previous Hp];
    [lia|].
  destruct (lookup_lt_is_Some_2 trace (Z.to_nat i)) as [current Hc]; [lia|].
  destruct (lookup_lt_is_Some_2 trace (Nat.pred (length trace)))
    as [last_output Hl]; [lia|].
  assert (Hpc : previous `prefix_of` current).
  { apply (grows_by_extension_le trace (Z.to_nat (i - 1)) (Z.to_nat i));
      [assumption | lia | assumption | assumption]. }
  assert (Hpl : previous `prefix_of` last_output).
  { apply (grows_by_extension_le trace (Z.to_nat (i - 1))
             (Nat.pred (length trace)));
      [assumption | lia | assumption | assumption]. }
  rewrite <- last_lookup in Hl.
  assert (Hge : 1 <= i) by lia.
  rewrite (get_revised_signal_step outputs text_idx i _ _ _ Hi
             (get_prefixes_lookup _ _ _ _ _ _ _ Hlook Hge Hp Hc Hl)).
  rewrite (take_prefix_of _ _ Hpc), (take_prefix_of _ _ Hpl).
  rewrite (label_triple_aligned previous previous previous eq_refl eq_refl).
  rewrite !decide_True by reflexivity. reflexivity.
Qed.

Lemma extension_never_revises_witness :
  get_revised_signal
    {[ "7"%string := [["DET"]; ["DET"; "NOUN"]; ["DET"; "NOUN"; "VERB"; "PUNCT"]]%string ]}
    "7"%string 2
  = Ok (0, NA_LABEL, NA_LABEL).
Proof.
  apply (extension_never_revises
           {[ "7"%string := [["DET"]; ["DET"; "NOUN"];
                             ["DET"; "NOUN"; "VERB"; "PUNCT"]]%string ]}
           "7"%string
           [["DET"]; ["DET"; "NOUN"]; ["DET"; "NOUN"; "VERB"; "PUNCT"]]%string 2).
  - reflexivity.
  - intros [|[|[|j]]] previous current Hp Hc; simpl in Hp, Hc;
      try discriminate; injection Hp as <-; injection Hc as <-.
    + exists ["NOUN"]%string. reflexivity.
    + exists ["VERB"; "PUNCT"]%string. reflexivity.
  - unfold py_len. simpl. lia.
Defined.

(** X8. Labels that a step appends beyond the length of the previous
    output do not change the signal of that step: when the output of step
    [i] is at least as long as the output of step [i-1], extending it with
    further labels leaves [get_revised_signal] at [i] as it is. *)
Theorem appended_labels_ignored
    (outputs outputs' : gmap string (list (list string))) (text_idx : string)
    (before after : list (list string))
    (previous current extra : list string) :
  outputs !! text_idx = Some (before ++ previous :: current :: after) →
  outputs' !! text_idx
  = Some (before ++ previous :: (current ++ extra) :: after) →
  (length previous ≤ length current)%nat →
  get_revised_signal outputs' text_idx (Z.of_nat (S (length before)))
  = get_revised_signal outputs text_idx (Z.of_nat (S (length before))).
Proof.
  intros Hlook Hlook' Hlen.
  set (i := Z.of_nat (S (length before))).
  assert (Hi : 1 <= i) by (unfold i; lia).
  assert (Hprev : ∀ c, (before ++ previous :: c :: after) !! Z.to_nat (i - 1)
                       = Some previous).
  { intros c. replace (Z.to_nat (i - 1)) with (length before + 0)%nat
      by (unfold i; lia).
    rewrite lookup_app_r by lia.
    replace (length before + 0 - length before)%nat with 0%nat by lia.
    reflexivity. }
  assert (Hcur : ∀ c, (before ++ previous :: c :: after) !! Z.to_nat i = Some c).
  { intros c. replace (Z.to_nat i) with (length before + 1)%nat
      by (unfold i; lia).
    rewrite lookup_app_r by lia.
    replace (length before + 1 - length before)%nat with 1%nat by lia.
    reflexivity. }
  assert (Hlast : ∀ c, ∃ l,
            last (before ++ previous :: c :: after) = Some l
            ∧ take (length previous) l
              = take (length previous)
                  (default c (last after))
            ∧ (after = [] → l = c)).
  { intros c. rewrite last_app. simpl.
    destruct after as [|a after'] using rev_ind.
    - exists c. simpl. auto.
    - exists a. rewrite !last_snoc. simpl.
      replace (c :: after' ++ [a]) with ((c :: after') ++ [a]) by reflexivity.
      rewrite last_snoc. repeat split.
      intros Hnil. destruct after'; discriminate. }
  destruct (Hlast current) as (l & Hl & Htake & Hnil).
  destruct (Hlast (current ++ extra)) as (l' & Hl' & Htake' & Hnil').
  rewrite (get_revised_signal_step outputs' text_idx i _ _ _ ltac:(lia)
             (get_prefixes_lookup _ _ _ _ _ _ _ Hlook' Hi
                (Hprev _) (Hcur _) Hl')).
  rewrite (get_revised_signal_step outputs text_idx i _ _ _ ltac:(lia)
             (get_prefixes_lookup _ _ _ _ _ _ _ Hlook Hi
                (Hprev _) (Hcur _) Hl)).
  rewrite take_app_le by assumption.
  f_equal. rewrite Htake, Htake'.
  destruct (last after); simpl; [reflexivity|].
  rewrite take_app_le by assumption. reflexivity.
Qed.

Lemma appended_labels_ignored_witness :
  get_revised_signal
    {[ "7"%string := [["DET"]; ["NOUN"; "PUNCT"]; ["DET"; "PUNCT"; "VERB"]]%string ]}
    "7"%string 1
  = get_revised_signal
      {[ "7"%string := [["DET"]; ["NOUN"]; ["DET"; "PUNCT"; "VERB"]]%string ]}
      "7"%string 1.
Proof.
  apply (appended_labels_ignored
           {[ "7"%string := [["DET"]; ["NOUN"];
                             ["DET"; "PUNCT"; "VERB"]]%string ]}
           {[ "7"%string := [["DET"]; ["NOUN"; "PUNCT"];
                             ["DET"; "PUNCT"; "VERB"]]%string ]}
           "7"%string [] [["DET"; "PUNCT"; "VERB"]]%string
           ["DET"]%string ["NOUN"]%string ["PUNCT"]%string);
    [reflexivity | reflexivity | simpl; lia].
Defined.

(** X9. [get_prefixes] and, away from position 0, [get_revised_signal]
    raise [KeyError] for a text that has no trace, and [IndexError] for a
    position at or beyond the end of the trace (so for every position of an
    empty trace). *)
Theorem get_prefixes_errors
    (outputs : gmap string (list (list string))) (text_idx : string) (i : Z) :
  (outputs !! text_idx = None →
   get_prefixes outputs text_idx i = Raise KeyError
   ∧ (i ≠ 0 → get_revised_signal outputs text_idx i = Raise KeyError))
  ∧ (∀ trace,
       outputs !! text_idx = Some trace →
       py_len trace <= i →
       get_prefixes outputs text_idx i = Raise IndexError
       ∧ (i ≠ 0 → get_revised_signal outputs text_idx i = Raise IndexError)).
Proof.
  split.
  - intros Hnone.
    assert (Hp : get_prefixes outputs text_idx i = Raise KeyError).
    { unfold get_prefixes, py_getitem. rewrite Hnone. reflexivity. }
    split; [exact Hp|].
    intros Hi. apply get_revised_signal_raise; assumption.
  - intros trace Hlook Hlen.
    assert (Hp : get_prefixes outputs text_idx i = Raise IndexError).
    { unfold get_prefixes, py_getitem. rewrite Hlook. simpl.
      destruct (py_index_cases trace (i - 1)) as [[x ->]| ->]; simpl;
        [|reflexivity].
      rewrite (py_index_out_of_range trace i Hlen). reflexivity. }
    split; [exact Hp|].
    intros Hi. apply get_revised_signal_raise; assumption.
Qed.

Lemma get_prefixes_errors_witness :
  get_prefixes {[ "7"%string := [["DET"]]%string ]} "8"%string 1
  = Raise KeyError
  ∧ get_revised_signal {[ "7"%string := [["DET"]]%string ]} "7"%string 1
    = Raise IndexError.
Proof.
  split.
  - apply (proj1 (get_prefixes_errors
                    {[ "7"%string := [["DET"]]%string ]} "8"%string 1)).
    reflexivity.
  - apply (proj2 (get_prefixes_errors
                    {[ "7"%string := [["DET"]]%string ]} "7"%string 1)
             [["DET"]]%string); [reflexivity | unfold py_len; simpl; lia | lia].
Defined.

(** X10. Called at position 0, [get_prefixes] wraps around: the index
    [i - 1 = -1] selects the last output of the trace as [previous], which
    is then compared with the first output and with itself.  This is the
    comparison that the guard [i == 0] of [get_revised_signal] keeps
    out. *)
Theorem get_prefixes_wraps_at_0
    (outputs : gmap string (list (list string))) (text_idx : string)
    (first_output last_output : list string) (trace : list (list string)) :
  outputs !! text_idx = Some trace →
  trace !! 0%nat = Some first_output →
  last trace = Some last_output →
  get_prefixes outputs text_idx 0
  = Ok (last_output, take (length last_output) first_output, last_output).
Proof.
  intros Hlook Hfirst Hlast. unfold get_prefixes, py_getitem.
  rewrite Hlook. change (0 - 1) with (-1). simpl.
  rewrite (py_index_last trace last_output Hlast). simpl.
  rewrite (py_index_in_range trace 0 first_output) by (lia || assumption).
  simpl.
  unfold py_slice_to, py_len. rewrite Nat2Z.id.
  rewrite (take_ge last_output) by lia. reflexivity.
Qed.

Lemma get_prefixes_wraps_at_0_witness :
  get_prefixes
    {[ "7"%string := [["DET"]; ["DET"; "NOUN"]]%string ]} "7"%string 0
  = Ok (["DET"; "NOUN"], ["DET"], ["DET"; "NOUN"])%string.
Proof.
  apply (get_prefixes_wraps_at_0
           {[ "7"%string := [["DET"]; ["DET"; "NOUN"]]%string ]} "7"%string
           ["DET"]%string ["DET"; "NOUN"]%string
           [["DET"]; ["DET"; "NOUN"]]%string);
    reflexivity.
Defined.

(* ===================================================================== *)
(** * The partial inputs and the identifiers *)

Section Strings.

Lemma string_app_cons (ch : ascii) (a b : string) :
  String ch a +:+ b = String ch (a +:+ b).
Proof. reflexivity. Qed.

Lemma string_app_assoc (a b c : string) : (a +:+ b) +:+ c = a +:+ (b +:+ c).
Proof.
  induction a as [|ch a IH]; [reflexivity|].
  rewrite !string_app_cons, IH. reflexivity.
Qed.

Lemma py_in_char_cons (c ch : ascii) (t : string) :
  py_in (String c EmptyString) (String ch t) = false
  ↔ ch ≠ c ∧ py_in (String c EmptyString) t = false.
Proof.
  cbn [py_in String.prefix].
  destruct (ascii_dec c ch) as [->|Hne].
  - replace (String.prefix EmptyString t) with true by (destruct t; reflexivity).
    simpl.
    split; [discriminate | intros [H _]; exfalso; apply H; reflexivity].
  - simpl. split; [intros H; split; [congruence | exact H] | intros [_ H]; exact H].
Qed.

Lemma py_in_char_cons_true (c ch : ascii) (t : string) :
  py_in (String c EmptyString) (String ch t) = true
  ↔ ch = c ∨ py_in (String c EmptyString) t = true.
Proof.
  pose proof (py_in_char_cons c ch t) as H.
  destruct (py_in (String c EmptyString) (String ch t));
    destruct (py_in (String c EmptyString) t);
    destruct (decide (ch = c)); intuition congruence.
Qed.

Lemma py_split_no_sep (c : ascii) (t : string) :
  py_in (String c EmptyString) t = false → py_split c t = [t].
Proof.
  induction t as [|ch t IH]; [reflexivity|].
  intros [Hne Hin]%py_in_char_cons. cbn [py_split].
  rewrite (proj2 (Ascii.eqb_neq ch c) Hne), (IH Hin). reflexivity.
Qed.

Lemma py_split_app_sep (c : ascii) (t rest : string) :
  py_in (String c EmptyString) t = false →
  py_split c (t +:+ String c rest) = t :: py_split c rest.
Proof.
  induction t as [|ch t IH]; intros Hin.
  - change (EmptyString +:+ String c rest) with (String c rest).
    cbn [py_split]. rewrite Ascii.eqb_refl. reflexivity.
  - apply py_in_char_cons in Hin as [Hne Hin].
    rewrite string_app_cons. cbn [py_split].
    rewrite (proj2 (Ascii.eqb_neq ch c) Hne), (IH Hin). reflexivity.
Qed.

Lemma py_split_not_nil (c : ascii) (s : string) : py_split c s ≠ [].
Proof.
  destruct s as [|ch s]; simpl; [discriminate|].
  destruct (Ascii.eqb ch c); [discriminate|].
  destruct (py_split c s); discriminate.
Qed.

Lemma py_split_sep_inside (c : ascii) (t : string) :
  py_in (String c EmptyString) t = true → (2 ≤ length (py_split c t))%nat.
Proof.
  induction t as [|ch t IH]; [discriminate|].
  intros Hin. apply py_in_char_cons_true in Hin. cbn [py_split].
  pose proof (py_split_not_nil c t) as Hnn.
  destruct (Ascii.eqb_spec ch c) as [->|Hne].
  - destruct (py_split c t); simpl; [contradiction|lia].
  - destruct Hin as [|Hin]; [contradiction|]. specialize (IH Hin).
    destruct (py_split c t); simpl in *; lia.
Qed.

Lemma py_join_snoc (sep : string) (l : list string) (x : string) :
  l ≠ [] → py_join sep (l ++ [x]) = py_join sep l +:+ sep +:+ x.
Proof.
  induction l as [|y l IH]; [contradiction|]. intros _.
  destruct l as [|z l]; [reflexivity|].
  change (py_join sep ((y :: z :: l) ++ [x]))
    with (y +:+ sep +:+ py_join sep ((z :: l) ++ [x])).
  rewrite IH by discriminate.
  change (py_join sep (y :: z :: l)) with (y +:+ sep +:+ py_join sep (z :: l)).
  rewrite !string_app_assoc. reflexivity.
Qed.

Lemma py_split_join (c : ascii) (l : list string) :
  l ≠ [] →
  Forall (λ t, py_in (String c EmptyString) t = false) l →
  py_split c (py_join (String c EmptyString) l) = l.
Proof.
  induction l as [|x l IH]; [contradiction|]. intros _ Hall.
  apply Forall_cons in Hall as [Hx Hall].
  destruct l as [|y l]; [apply py_split_no_sep, Hx|].
  change (py_join (String c EmptyString) (x :: y :: l))
    with (x +:+ String c (py_join (String c EmptyString) (y :: l))).
  rewrite (py_split_app_sep c x _ Hx), IH by (discriminate || assumption).
  reflexivity.
Qed.

End Strings.

Section MapM.

Context {A B : Type} (f : A → result B).

Lemma mapM_result_Ok (l : list A) (k : list B) :
  mapM f l = Ok k ↔ Forall2 (λ x y, f x = Ok y) l k.
Proof.
  split.
  - revert k. induction l as [|x l IH]; intros k; simpl.
    + intros [= <-]. constructor.
    + destruct (f x) as [y|e] eqn:Hfx; simpl; [|discriminate].
      destruct (mapM f l) as [k'|e] eqn:Hl; simpl; [|discriminate].
      intros [= <-]. constructor; [assumption | apply IH; reflexivity].
  - induction 1 as [|x y l k Hxy _ IH]; simpl; [reflexivity|].
    rewrite Hxy. simpl. rewrite IH. reflexivity.
Qed.

Lemma mapM_result_length (l : list A) (k : list B) :
  mapM f l = Ok k → length k = length l.
Proof. intros H%mapM_result_Ok. symmetry. exact (Forall2_length _ _ _ H). Qed.

Lemma mapM_result_snoc (l : list A) (x : A) (k : list B) (y : B) :
  mapM f l = Ok k → f x = Ok y → mapM f (l ++ [x]) = Ok (k ++ [y]).
Proof.
  intros Hl%mapM_result_Ok Hx. apply mapM_result_Ok.
  apply Forall2_app; [assumption|]. repeat constructor. assumption.
Qed.

Lemma mapM_result_raise (l : list A) (e : exn) :
  (∀ x, x ∈ l → (∃ y, f x = Ok y) ∨ f x = Raise e) →
  (∃ x, x ∈ l ∧ f x = Raise e) →
  mapM f l = Raise e.
Proof.
  induction l as [|x l IH]; intros Hall (z & Hz & Hfz).
  - inversion Hz.
  - simpl. destruct (Hall x ltac:(left)) as [[y Hy]|Hx].
    + rewrite Hy. simpl. rewrite IH; [reflexivity| |].
      * intros w Hw. apply Hall. right. assumption.
      * apply elem_of_cons in Hz as [->|Hz]; [congruence|]. eauto.
    + rewrite Hx. reflexivity.
Qed.

End MapM.

Lemma dict_getitem_cases {V : Type} (d : dict V) (k : string) :
  (∃ v, dict_getitem d k = Ok v) ∨ dict_getitem d k = Raise KeyError.
Proof.
  induction d as [|[k' v] d IH]; simpl; [right; reflexivity|].
  destruct (String.eqb k' k); [left; eexists; reflexivity | exact IH].
Qed.

Lemma py_range_succ (n : Z) :
  0 <= n → py_range (n + 1) = py_range n ++ [Z.to_nat n].
Proof.
  intros Hn. unfold py_range.
  replace (Z.to_nat (n + 1)) with (S (Z.to_nat n)) by lia.
  rewrite seq_S. reflexivity.
Qed.

(** X11. The partial input grows by one token at a time: the prefix up to
    token [i + 1] is the prefix up to token [i], a space, and token
    [i + 1]. *)
Theorem get_partial_input_grows (tokens : dict string) (i : Z)
    (s token : string) :
  0 <= i →
  get_partial_input tokens i = Ok s →
  dict_getitem tokens (py_str (Z.to_nat (i + 1))) = Ok token →
  get_partial_input tokens (i + 1) = Ok (s +:+ " " +:+ token).
Proof.
  intros Hi Hs Htok. unfold get_partial_input in *.
  destruct (mapM _ (py_range (i + 1))) as [items|e] eqn:Hitems;
    simpl in Hs; [|discriminate].
  injection Hs as <-.
  rewrite (py_range_succ (i + 1)) by lia.
  rewrite (mapM_result_snoc _ _ _ _ _ Hitems Htok). simpl.
  rewrite py_join_snoc; [reflexivity|].
  apply mapM_result_length in Hitems. unfold py_range in Hitems.
  rewrite length_seq in Hitems. destruct items; [simpl in Hitems; lia|].
  discriminate.
Qed.

Lemma get_partial_input_grows_witness :
  get_partial_input [("0", "The"); ("1", "cat"); ("2", "sat")]%string 1
  = Ok "The cat"%string.
Proof.
  apply (get_partial_input_grows
           [("0", "The"); ("1", "cat"); ("2", "sat")]%string 0
           "The"%string "cat"%string);
    [lia | reflexivity | reflexivity].
Defined.

(** X12. When no token up to position [i] contains a space, splitting the
    partial input on spaces gives back exactly the tokens 0 to [i], each at
    its position. *)
Theorem partial_input_splits_into_tokens (tokens : dict string) (i : Z)
    (s : string) :
  0 <= i →
  space_free tokens i →
  get_partial_input tokens i = Ok s →
  length (py_split " " s) = Z.to_nat (i + 1)
  ∧ ∀ j token,
      Z.of_nat j <= i →
      dict_getitem tokens (py_str j) = Ok token →
      py_split " " s !! j = Some token.
Proof.
  intros Hi Hfree Hs. unfold get_partial_input in Hs.
  destruct (mapM _ (py_range (i + 1))) as [items|e] eqn:Hitems;
    simpl in Hs; [|discriminate].
  injection Hs as <-.
  pose proof (mapM_result_length _ _ _ Hitems) as Hlen.
  unfold py_range in Hlen, Hitems. rewrite length_seq in Hlen.
  apply mapM_result_Ok in Hitems.
  assert (Hsplit : py_split " " (py_join " " items) = items).
  { apply py_split_join.
    - destruct items; [simpl in Hlen; lia | discriminate].
    - apply Forall_lookup_2. intros k t Hk.
      destruct (Forall2_lookup_r _ _ _ _ _ Hitems Hk) as (j & Hj & Hjt).
      apply lookup_seq in Hj as [-> Hj].
      apply (Hfree k t); [lia | exact Hjt]. }
  rewrite Hsplit. split; [exact Hlen|].
  intros j token Hj Htok.
  destruct (Forall2_lookup_l _ _ _ j j Hitems) as (t & Ht & Hjt).
  { apply lookup_seq. split; [reflexivity | lia]. }
  rewrite Ht. congruence.
Qed.

Lemma partial_input_splits_into_tokens_witness :
  py_split " " "The cat"%string !! 1%nat = Some "cat"%string.
Proof.
  refine (proj2 (partial_input_splits_into_tokens
            [("0", "The"); ("1", "cat"); ("2", "sat")]%string 1
            "The cat"%string _ _ eq_refl) 1%nat "cat"%string _ eq_refl).
  - lia.
  - intros [|[|j]] token Hj Htok; simpl in Hj; try lia;
      injection Htok as <-; reflexivity.
  - lia.
Defined.

(** X13. [get_partial_input] returns the empty string for a negative
    position, and raises [KeyError] as soon as one position up to [i] has
    no token. *)
Theorem get_partial_input_edges (tokens : dict string) (i : Z) :
  (i < 0 → get_partial_input tokens i = Ok EmptyString)
  ∧ (∀ j, Z.of_nat j <= i →
       dict_getitem tokens (py_str j) = Raise KeyError →
       get_partial_input tokens i = Raise KeyError).
Proof.
  unfold get_partial_input. split.
  - intros Hi. unfold py_range.
    replace (Z.to_nat (i + 1)) with 0%nat by lia. reflexivity.
  - intros j Hj Hmiss.
    rewrite (mapM_result_raise _ (py_range (i + 1)) KeyError); [reflexivity| |].
    + intros k _. apply dict_getitem_cases.
    + exists j. split; [|exact Hmiss].
      apply elem_of_seq. lia.
Qed.

Lemma get_partial_input_edges_witness :
  get_partial_input [("0", "The"); ("2", "sat")]%string (-1) = Ok EmptyString
  ∧ get_partial_input [("0", "The"); ("2", "sat")]%string 2 = Raise KeyError.
Proof.
  split.
  - apply (proj1 (get_partial_input_edges
                    [("0", "The"); ("2", "sat")]%string (-1))). lia.
  - apply (proj2 (get_partial_input_edges
                    [("0", "The"); ("2", "sat")]%string 2) 1%nat);
      [lia | reflexivity].
Defined.

Section Identifiers.

Lemma py_split_app_sep_length (c : ascii) (a b : string) :
  length (py_split c (a +:+ String c b))
  = (length (py_split c a) + length (py_split c b))%nat.
Proof.
  induction a as [|ch a IH].
  - change (EmptyString +:+ String c b) with (String c b).
    cbn [py_split]. rewrite Ascii.eqb_refl. reflexivity.
  - rewrite string_app_cons. cbn [py_split].
    destruct (Ascii.eqb ch c); simpl; [rewrite IH; reflexivity|].
    pose proof (py_split_not_nil c a).
    pose proof (py_split_not_nil c (a +:+ String c b)).
    destruct (py_split c a), (py_split c (a +:+ String c b));
      simpl in *; try contradiction; lia.
Qed.

Lemma identifier_shape (text_idx i : string) :
  identifier text_idx i
  = "text" +:+ String "_" (text_idx +:+ String "_" ("token" +:+ String "_" i)).
Proof. reflexivity. Qed.

Lemma identifier_parts (text_idx i : string) :
  length (py_split "_" (identifier text_idx i))
  = (2 + length (py_split "_" text_idx) + length (py_split "_" i))%nat.
Proof.
  rewrite identifier_shape, !py_split_app_sep_length. simpl. lia.
Qed.

Lemma py_split_identifier (text_idx i : string) :
  py_in "_" text_idx = false →
  py_in "_" i = false →
  py_split "_" (identifier text_idx i)
  = ["text"; text_idx; "token"; i]%string.
Proof.
  intros Ht Hi. rewrite identifier_shape.
  rewrite !py_split_app_sep by (reflexivity || assumption).
  rewrite (py_split_no_sep "_" i Hi). reflexivity.
Qed.

End Identifiers.

(** X14. The identifier [text_<text_idx>_token_<i>] that the incremental
    notebook gives a token splits on underscores into exactly
    [text], the text identifier, [token] and the position, provided the
    text identifier and the position contain no underscore. *)
Theorem identifier_splits (text_idx i : string) :
  py_in "_" text_idx = false →
  py_in "_" i = false →
  py_split "_" (identifier text_idx i)
  = ["text"; text_idx; "token"; i]%string.
Proof.
  intros Ht Hi. rewrite identifier_shape.
  rewrite (py_split_app_sep "_" "text") by reflexivity.
  rewrite (py_split_app_sep "_" text_idx) by assumption.
  rewrite (py_split_app_sep "_" "token") by reflexivity.
  rewrite (py_split_no_sep "_" i) by assumption.
  reflexivity.
Qed.

Lemma identifier_splits_witness :
  py_split "_" (identifier "12" "3") = ["text"; "12"; "token"; "3"]%string.
Proof. apply (identifier_splits "12" "3"); reflexivity. Defined.

(* ===================================================================== *)
(** * The melt-and-split cell on a table of any number of rows *)

Section MeltShape.

Variables (corpus : string) (ls : list label).
Variables (ids toks regs revs convs effs subj : list value).

Let merged : DataFrame :=
  {| index := {| name := Some "Identifier"%string; labels := ls |};
     columns := [("Token"%string, toks); ("Subj:001"%string, regs);
                 ("revision:pos_modelA"%string, revs);
                 ("convenient-revision:pos_modelA"%string, convs);
                 ("effective-revision:pos_modelA"%string, effs)] |}.

Let path : string :=
  "preprocessed/models-humans/revisions-regressions/" +:+ corpus
    +:+ "_modelA_pos.csv".

Let effective_path : string :=
  "preprocessed/models-humans/effective_revisions-regressions/" +:+ corpus
    +:+ "_modelA_pos.csv".

Let melted (revision : list value) : DataFrame :=
  {| index := RangeIndex (1 * length (labels (RangeIndex (length ls))));
     columns :=
       [("Identifier"%string, concat (replicate 1 (value_of_label <$> ls)));
        ("Token"%string, concat (replicate 1 toks));
        ("revision"%string, concat (replicate 1 revision));
        ("subjectid"%string,
         replicate (length (labels (RangeIndex (length ls)))) (VStr "001")
           ++ []);
        ("regression"%string, regs ++ [])] |}.

Lemma revisions_regressions_one_column :
  revisions_regressions [(corpus, merged)]
  = (file ← melt_column corpus merged ["Token"; "Subj:001"]%string
              "revision:pos_modelA";
     Ok [file]).
Proof.
  unfold revisions_regressions.
  change (mapM _ [(corpus, merged)])
    with (mapM (λ '(corpus, data),
                  mapM (melt_column corpus data ["Token"; "Subj:001"]%string)
                    ["revision:pos_modelA"%string])
            [(corpus, merged)]).
  simpl mapM. destruct (melt_column _ _ _ _); reflexivity.
Qed.

Lemma effective_revisions_regressions_one_column :
  effective_revisions_regressions [(corpus, merged)]
  = (file ← melt_effective_column corpus merged ["Token"; "Subj:001"]%string
              "effective-revision:pos_modelA";
     Ok [file]).
Proof.
  unfold effective_revisions_regressions.
  change (mapM _ [(corpus, merged)])
    with (mapM (λ '(corpus, data),
                  mapM (melt_effective_column corpus data
                          ["Token"; "Subj:001"]%string)
                    ["effective-revision:pos_modelA"%string])
            [(corpus, merged)]).
  simpl mapM. destruct (melt_effective_column _ _ _ _); reflexivity.
Qed.

Lemma melt_column_after_melt :
  melt_column corpus merged ["Token"; "Subj:001"]%string "revision:pos_modelA"
  = (identifier ← getitem (melted revs) "Identifier";
     parts ← str_split_expand identifier "_";
     aux_data ← setitem_list (melted revs)
       ["n1"; "textid"; "n2"; "token_position"]%string parts;
     aux_data ← drop_column aux_data "n1";
     aux_data ← drop_column aux_data "n2";
     Ok (path, aux_data)).
Proof. reflexivity. Qed.

Lemma melt_effective_column_after_melt :
  melt_effective_column corpus merged ["Token"; "Subj:001"]%string
    "effective-revision:pos_modelA"
  = (identifier ← getitem (melted effs) "Identifier";
     parts ← str_split_expand identifier "_";
     aux_data ← setitem_list (melted effs)
       ["n1"; "textid"; "n2"; "token_position"]%string parts;
     aux_data ← drop_column aux_data "n1";
     aux_data ← drop_column aux_data "n2";
     aux_data ← fillna_column aux_data "revision" (VInt 0);
     Ok (effective_path, aux_data)).
Proof. reflexivity. Qed.

Lemma melted_eq (revision : list value) :
  melted revision
  = {| index := RangeIndex (length ls);
       columns := [("Identifier"%string, value_of_label <$> ls);
                   ("Token"%string, toks);
                   ("revision"%string, revision);
                   ("subjectid"%string, replicate (length ls) (VStr "001"));
                   ("regression"%string, regs)] |}.
Proof.
  unfold melted. cbn [concat replicate]. rewrite !app_nil_r.
  cbn [RangeIndex labels]. rewrite !length_fmap, !length_seq, Nat.mul_1_l.
  reflexivity.
Qed.

Lemma split_and_drop (ix : Index) :
  (let melted :=
     {| index := ix;
        columns := [("Identifier"%string, ids); ("Token"%string, toks);
                    ("revision"%string, revs); ("subjectid"%string, subj);
                    ("regression"%string, regs)] |} in
   identifier ← getitem melted "Identifier";
   parts ← str_split_expand identifier "_";
   aux_data ← setitem_list melted
     ["n1"; "textid"; "n2"; "token_position"]%string parts;
   aux_data ← drop_column aux_data "n1";
   aux_data ← drop_column aux_data "n2";
   Ok (path, aux_data))
  = (parts ← str_split_expand {| s_index := labels ix; s_values := ids |} "_";
     match parts with
     | [_; textid; _; token_position] =>
         Ok (path,
             {| index := ix;
                columns := [("Identifier"%string, ids); ("Token"%string, toks);
                            ("revision"%string, revs);
                            ("subjectid"%string, subj);
                            ("regression"%string, regs);
                            ("textid"%string, textid);
                            ("token_position"%string, token_position)] |})
     | _ => Raise ValueError
     end).
Proof.
  cbv zeta.
  change (getitem _ "Identifier")
    with (Ok {| s_index := labels ix; s_values := ids |}).
  cbn [mbind result_bind].
  destruct (str_split_expand _ _) as [parts|e]; [|reflexivity].
  destruct parts as [|a [|b [|c [|d [|e parts]]]]]; reflexivity.
Qed.

Lemma split_drop_and_fill (ix : Index) :
  (let melted :=
     {| index := ix;
        columns := [("Identifier"%string, ids); ("Token"%string, toks);
                    ("revision"%string, effs); ("subjectid"%string, subj);
                    ("regression"%string, regs)] |} in
   identifier ← getitem melted "Identifier";
   parts ← str_split_expand identifier "_";
   aux_data ← setitem_list melted
     ["n1"; "textid"; "n2"; "token_position"]%string parts;
   aux_data ← drop_column aux_data "n1";
   aux_data ← drop_column aux_data "n2";
   aux_data ← fillna_column aux_data "revision" (VInt 0);
   Ok (effective_path, aux_data))
  = (parts ← str_split_expand {| s_index := labels ix; s_values := ids |} "_";
     match parts with
     | [_; textid; _; token_position] =>
         Ok (effective_path,
             {| index := ix;
                columns := [("Identifier"%string, ids); ("Token"%string, toks);
                            ("revision"%string, fillna effs (VInt 0));
                            ("subjectid"%string, subj);
                            ("regression"%string, regs);
                            ("textid"%string, textid);
                            ("token_position"%string, token_position)] |})
     | _ => Raise ValueError
     end).
Proof.
  cbv zeta.
  change (getitem _ "Identifier")
    with (Ok {| s_index := labels ix; s_values := ids |}).
  cbn [mbind result_bind].
  destruct (str_split_expand _ _) as [parts|e]; [|reflexivity].
  destruct parts as [|a [|b [|c [|d [|e parts]]]]]; reflexivity.
Qed.

End MeltShape.

Section SplitIdentifiers.

Lemma replicate_const_fmap {A B : Type} (x : B) (l : list A) :
  replicate (length l) x = (λ _, x) <$> l.
Proof. induction l as [|y l IH]; simpl; [reflexivity | f_equal; exact IH]. Qed.

Lemma str_split_expand_identifiers (ix : list label) (rows : list token_row) :
  rows ≠ [] →
  Forall underscore_free rows →
  str_split_expand
    {| s_index := ix;
       s_values := (λ r, VStr (row_identifier r)) <$> rows |} "_"
  = Ok [(λ _, VStr "text") <$> rows; (λ r, VStr (row_text r)) <$> rows;
        (λ _, VStr "token") <$> rows; (λ r, VStr (row_position r)) <$> rows].
Proof.
  intros Hne Hall. unfold str_split_expand. cbn [s_values].
  rewrite <- list_fmap_compose.
  assert (Hparts :
    ((λ v, if v is VStr x then Some (py_split "_" x) else None)
       ∘ (λ r, VStr (row_identifier r))) <$> rows
    = (λ r, Some ["text"; row_text r; "token"; row_position r]%string)
        <$> rows).
  { apply Forall_fmap_ext. eapply Forall_impl; [exact Hall|].
    intros r [Ht Hp]. cbv [compose]. unfold row_identifier.
    rewrite (py_split_identifier _ _ Ht Hp). reflexivity. }
  rewrite Hparts. clear Hparts Hall.
  destruct rows as [|r rows]; [contradiction|]. clear Hne.
  rewrite bool_decide_eq_false_2 by discriminate.
  cbn [fmap list_fmap forallb negb orb].
  assert (Hwidth : ∀ l : list token_row,
    foldr (λ p w, if p is Some ws then Nat.max (length ws) w else w) 0%nat
      ((λ r, Some ["text"; row_text r; "token"; row_position r]%string) <$> l)
    = if l is [] then 0%nat else 4%nat).
  { induction l as [|x l IHl]; [reflexivity|].
    rewrite fmap_cons. cbn [foldr]. rewrite IHl. destruct l; reflexivity. }
  specialize (Hwidth (r :: rows)). cbn [fmap list_fmap] in Hwidth.
  rewrite Hwidth. clear Hwidth. cbn [seq fmap list_fmap].
  repeat f_equal;
    (induction rows as [|x rows IH]; [reflexivity|]; simpl; f_equal; exact IH).
Qed.

Lemma str_split_expand_wide (s : Series) (x : string) (n : nat) :
  VStr x ∈ s_values s →
  (n ≤ length (py_split "_" x))%nat →
  ∃ parts, str_split_expand s "_" = Ok parts ∧ (n ≤ length parts)%nat.
Proof.
  intros Hx Hn. unfold str_split_expand.
  set (parts := (λ v, if v is VStr y then Some (py_split "_" y) else None)
                  <$> s_values s).
  assert (Hin : Some (py_split "_" x) ∈ parts).
  { apply list_elem_of_fmap. exists (VStr x). split; [reflexivity|assumption]. }
  assert (Hguard : negb (forallb (λ p, if p is Some _ then false else true) parts)
                   || bool_decide (parts = []) = true).
  { apply orb_true_iff. left. apply negb_true_iff.
    destruct (forallb _ parts) eqn:Hall; [|reflexivity].
    rewrite forallb_forall in Hall.
    apply list_elem_of_In in Hin. specialize (Hall _ Hin). discriminate. }
  rewrite Hguard. eexists. split; [reflexivity|].
  rewrite length_fmap, length_seq.
  clear Hguard. induction parts as [|p parts IH]; [inversion Hin|].
  cbn [foldr]. apply elem_of_cons in Hin as [<-|Hin].
  - lia.
  - specialize (IH Hin). destruct p; lia.
Qed.

End SplitIdentifiers.

(** X15. On a merged table with one subject and the three columns of one
    model and task, of any non-empty number of rows whose text identifiers
    and positions contain no underscore, the melt-and-split cell writes
    exactly one long table, for the plain revision column: a row per token
    with its identifier, token, revision (missing values are kept),
    subject, regression, and the text identifier and position read back
    from the identifier.  The convenient and the effective column give no
    file. *)
Theorem melt_recovers_text_and_position (corpus : string)
    (rows : list token_row) :
  rows ≠ [] →
  Forall underscore_free rows →
  revisions_regressions [(corpus, one_subject_table rows)]
  = Ok [("preprocessed/models-humans/revisions-regressions/" +:+ corpus
           +:+ "_modelA_pos.csv", long_table row_revision rows)].
Proof.
  intros Hne Hall. unfold one_subject_table.
  rewrite revisions_regressions_one_column, melt_column_after_melt.
  rewrite melted_eq, <- list_fmap_compose.
  change (value_of_label ∘ (λ r, LStr (row_identifier r)))
    with (λ r, VStr (row_identifier r)).
  rewrite (split_and_drop corpus ((λ r, VStr (row_identifier r)) <$> rows)).
  rewrite (str_split_expand_identifiers _ rows Hne Hall).
  rewrite length_fmap, replicate_const_fmap. reflexivity.
Qed.

Lemma melt_recovers_text_and_position_witness :
  revisions_regressions
    [("provo"%string,
      one_subject_table
        [{| row_text := "1"; row_position := "0"; row_token := "The";
            row_regression := VInt 0; row_revision := VInt 0;
            row_convenient := VInt 0; row_effective := VInt 0 |};
         {| row_text := "1"; row_position := "1"; row_token := "cat";
            row_regression := VInt 1; row_revision := NaN;
            row_convenient := NaN; row_effective := NaN |}])]
  = Ok [("preprocessed/models-humans/revisions-regressions/provo_modelA_pos.csv"%string,
         long_table row_revision
           [{| row_text := "1"; row_position := "0"; row_token := "The";
               row_regression := VInt 0; row_revision := VInt 0;
               row_convenient := VInt 0; row_effective := VInt 0 |};
            {| row_text := "1"; row_position := "1"; row_token := "cat";
               row_regression := VInt 1; row_revision := NaN;
               row_convenient := NaN; row_effective := NaN |}])].
Proof.
  apply (melt_recovers_text_and_position "provo").
  - discriminate.
  - repeat constructor.
Defined.

(** X16. A single row whose text identifier or position contains an
    underscore makes the melt-and-split cell fail: the identifier splits
    into more than four parts, and the assignment to the four columns
    [n1], [textid], [n2], [token_position] raises [ValueError]. *)
Theorem melt_rejects_underscores (corpus : string) (rows : list token_row)
    (r : token_row) :
  r ∈ rows →
  py_in "_" (row_text r) = true ∨ py_in "_" (row_position r) = true →
  revisions_regressions [(corpus, one_subject_table rows)]
  = Raise ValueError.
Proof.
  intros Hr Hunder. unfold one_subject_table.
  rewrite revisions_regressions_one_column, melt_column_after_melt.
  rewrite melted_eq, <- list_fmap_compose.
  change (value_of_label ∘ (λ r, LStr (row_identifier r)))
    with (λ r, VStr (row_identifier r)).
  rewrite (split_and_drop corpus ((λ r, VStr (row_identifier r)) <$> rows)).
  destruct (str_split_expand_wide
              {| s_index := labels (RangeIndex (length
                   ((λ r, LStr (row_identifier r)) <$> rows)));
                 s_values := (λ r, VStr (row_identifier r)) <$> rows |}
              (row_identifier r) 5) as (parts & -> & Hlen).
  - apply list_elem_of_fmap. exists r. split; [reflexivity|assumption].
  - unfold row_identifier. rewrite identifier_parts.
    pose proof (py_split_not_nil "_" (row_text r)).
    pose proof (py_split_not_nil "_" (row_position r)).
    destruct Hunder as [H1|H1]; apply py_split_sep_inside in H1;
      destruct (py_split "_" (row_text r)), (py_split "_" (row_position r));
      simpl in *; try contradiction; lia.
  - destruct parts as [|a [|b [|c [|d [|e parts]]]]]; simpl in Hlen; try lia.
    reflexivity.
Qed.

Lemma melt_rejects_underscores_witness :
  revisions_regressions
    [("provo"%string,
      one_subject_table
        [{| row_text := "1_a"; row_position := "0"; row_token := "The";
            row_regression := VInt 0; row_revision := VInt 0;
            row_convenient := VInt 0; row_effective := VInt 0 |}])]
  = Raise ValueError.
Proof.
  apply (melt_rejects_underscores "provo" _
           {| row_text := "1_a"; row_position := "0"; row_token := "The";
              row_regression := VInt 0; row_revision := VInt 0;
              row_convenient := VInt 0; row_effective := VInt 0 |}).
  - left.
  - left. reflexivity.
Defined.

(** X22. On the same tables the cell of the effective revisions writes
    exactly one long table, for the effective revision column, in which
    every missing revision value is replaced by 0; the other columns are
    those of the plain table. *)
Theorem melt_effective_fills_missing (corpus : string)
    (rows : list token_row) :
  rows ≠ [] →
  Forall underscore_free rows →
  effective_revisions_regressions [(corpus, one_subject_table rows)]
  = Ok [("preprocessed/models-humans/effective_revisions-regressions/"
           +:+ corpus +:+ "_modelA_pos.csv",
         long_table (λ r, if row_effective r is NaN then VInt 0
                          else row_effective r) rows)].
Proof.
  intros Hne Hall. unfold one_subject_table.
  rewrite effective_revisions_regressions_one_column,
    melt_effective_column_after_melt.
  rewrite melted_eq, <- list_fmap_compose.
  change (value_of_label ∘ (λ r, LStr (row_identifier r)))
    with (λ r, VStr (row_identifier r)).
  rewrite (split_drop_and_fill corpus
             ((λ r, VStr (row_identifier r)) <$> rows)).
  rewrite (str_split_expand_identifiers _ rows Hne Hall).
  rewrite length_fmap, replicate_const_fmap.
  unfold fillna. rewrite <- list_fmap_compose. reflexivity.
Qed.

Lemma melt_effective_fills_missing_witness :
  effective_revisions_regressions
    [("provo"%string,
      one_subject_table
        [{| row_text := "1"; row_position := "0"; row_token := "The";
            row_regression := VInt 0; row_revision := VInt 1;
            row_convenient := VInt 1; row_effective := VInt 1 |};
         {| row_text := "1"; row_position := "1"; row_token := "cat";
            row_regression := VInt 1; row_revision := NaN;
            row_convenient := NaN; row_effective := NaN |}])]
  = Ok [("preprocessed/models-humans/effective_revisions-regressions/provo_modelA_pos.csv"%string,
         long_table (λ r, if row_effective r is NaN then VInt 0
                          else row_effective r)
           [{| row_text := "1"; row_position := "0"; row_token := "The";
               row_regression := VInt 0; row_revision := VInt 1;
               row_convenient := VInt 1; row_effective := VInt 1 |};
            {| row_text := "1"; row_position := "1"; row_token := "cat";
               row_regression := VInt 1; row_revision := NaN;
               row_convenient := NaN; row_effective := NaN |}])].
Proof.
  apply (melt_effective_fills_missing "provo").
  - discriminate.
  - repeat constructor.
Defined.

(* ===================================================================== *)
(** * The loop over one text *)

Section ProcessText.

Variable tagger : string → list string.
Variable tokens : dict string.
Variable text_idx : string.

Implicit Types outputs : gmap string (list (list string)).

Let output_at (j : nat) : list string := tagger (partial_input_at tokens j).

Lemma mapM_result_total {A B : Type} (f : A → result B) (l : list A) :
  (∀ x, x ∈ l → ∃ y, f x = Ok y) → ∃ k, mapM f l = Ok k.
Proof.
  induction l as [|x l IH]; intros Hall; [exists []; reflexivity|].
  destruct (Hall x ltac:(left)) as [y Hy].
  destruct IH as [k Hk]; [intros z Hz; apply Hall; right; exact Hz|].
  exists (y :: k). simpl. rewrite Hy. simpl. rewrite Hk. reflexivity.
Qed.

Lemma get_partial_input_complete (j : nat) :
  positions_complete tokens → (j < length tokens)%nat →
  ∃ s, get_partial_input tokens (Z.of_nat j) = Ok s.
Proof.
  intros Hcomplete Hj. unfold get_partial_input.
  destruct (mapM_result_total (λ k, dict_getitem tokens (py_str k))
              (py_range (Z.of_nat j + 1))) as [items Hitems].
  - intros k Hk. apply Hcomplete. apply elem_of_seq in Hk. lia.
  - rewrite Hitems. eexists. reflexivity.
Qed.

Lemma for_fold_append outputs (trace : list (list string)) (a b : nat) :
  (∀ j, (a ≤ j < a + b)%nat →
        ∃ s, get_partial_input tokens (Z.of_nat j) = Ok s) →
  for_fold (append_outputs tagger tokens text_idx)
    (<[text_idx := trace]> outputs) (seq a b)
  = Ok (<[text_idx := trace ++ (output_at <$> seq a b)]> outputs).
Proof.
  revert a trace. induction b as [|b IH]; intros a trace Hall.
  - simpl. rewrite app_nil_r. reflexivity.
  - cbn [seq for_fold].
    destruct (Hall a ltac:(lia)) as [s Hs].
    assert (Ha : output_at a = tagger s).
    { unfold output_at, partial_input_at. rewrite Hs. reflexivity. }
    assert (Hstep : append_outputs tagger tokens text_idx
                      (<[text_idx := trace]> outputs) a
                    = Ok (<[text_idx := trace ++ [tagger s]]> outputs)).
    { unfold append_outputs, py_getitem. rewrite Hs. simpl.
      rewrite lookup_insert_eq. simpl. rewrite insert_insert_eq.
      reflexivity. }
    rewrite Hstep. cbn [mbind result_bind].
    fold (append_outputs tagger tokens text_idx).
    rewrite IH by (intros j Hj; apply Hall; lia).
    rewrite fmap_cons, Ha, <- app_assoc. reflexivity.
Qed.


Lemma signal_on_shrinking_trace outputs (trace : list (list string)) (i : nat)
    (previous current : list string) :
  outputs !! text_idx = Some trace →
  trace !! i = Some previous →
  trace !! S i = Some current →
  (length current < length previous)%nat →
  get_revised_signal outputs text_idx (Z.of_nat (S i)) = Raise AssertionError.
Proof.
  intros Hlook Hp Hc Hshort.
  destruct (lookup_lt_is_Some_2 trace (Nat.pred (length trace)))
    as [last_output Hl].
  { pose proof (lookup_lt_Some _ _ _ Hc). lia. }
  rewrite <- last_lookup in Hl.
  rewrite (get_revised_signal_step outputs text_idx (Z.of_nat (S i))
             previous (take (length previous) current)
             (take (length previous) last_output)); [|lia|].
  - apply label_triple_misaligned. left. rewrite length_take. lia.
  - apply (get_prefixes_lookup outputs text_idx trace); try assumption; [lia| |].
    + replace (Z.to_nat (Z.of_nat (S i) - 1)) with i by lia. exact Hp.
    + rewrite Nat2Z.id. exact Hc.
Qed.

Lemma signal_cases outputs (trace : list (list string)) (i : nat) :
  outputs !! text_idx = Some trace →
  (i < length trace)%nat →
  (∃ triple, get_revised_signal outputs text_idx (Z.of_nat i) = Ok triple)
  ∨ get_revised_signal outputs text_idx (Z.of_nat i) = Raise AssertionError.
Proof.
  intros Hlook Hi.
  destruct i as [|i]; [left; eexists; reflexivity|].
  destruct (lookup_lt_is_Some_2 trace i) as [previous Hp]; [lia|].
  destruct (lookup_lt_is_Some_2 trace (S i)) as [current Hc]; [lia|].
  destruct (lookup_lt_is_Some_2 trace (Nat.pred (length trace)))
    as [last_output Hl]; [lia|].
  rewrite <- last_lookup in Hl.
  rewrite (get_revised_signal_step outputs text_idx (Z.of_nat (S i))
             previous (take (length previous) current)
             (take (length previous) last_output)); [|lia|].
  - set (c := take (length previous) current).
    set (f := take (length previous) last_output).
    destruct (decide (length previous = length c)) as [Hlc|Hlc];
      [destruct (decide (length previous = length f)) as [Hlf|Hlf]|].
    + left. eexists. apply label_triple_aligned; assumption.
    + right. apply label_triple_misaligned. right. assumption.
    + right. apply label_triple_misaligned. left. assumption.
  - apply (get_prefixes_lookup outputs text_idx trace); try assumption; [lia| |].
    + replace (Z.to_nat (Z.of_nat (S i) - 1)) with i by lia. exact Hp.
    + rewrite Nat2Z.id. exact Hc.
Qed.


Lemma process_text_trace outputs :
  outputs !! text_idx = Some [] →
  positions_complete tokens →
  for_fold (append_outputs tagger tokens text_idx) outputs
    (py_range (py_len tokens))
  = Ok (<[text_idx := output_at <$> seq 0 (length tokens)]> outputs).
Proof.
  intros Hempty Hcomplete.
  rewrite <- (insert_id outputs text_idx [] Hempty) at 1.
  unfold py_range, py_len. rewrite Nat2Z.id.
  rewrite for_fold_append; [reflexivity|].
  intros j Hj. apply get_partial_input_complete; [assumption|lia].
Qed.

End ProcessText.



(** X18. If, for some token after the first, the tagger gives the partial
    input that ends at this token fewer labels than the one before, the
    loop over the text raises [AssertionError]: no signal of the text is
    returned. *)
Theorem process_text_fails_on_shrinking_output
    (tagger : string → list string)
    (outputs : gmap string (list (list string)))
    (text_idx : string) (tokens : dict string) (j : nat) :
  outputs !! text_idx = Some [] →
  positions_complete tokens →
  (S j < length tokens)%nat →
  (length (tagger (partial_input_at tokens (S j)))
   < length (tagger (partial_input_at tokens j)))%nat →
  process_text tagger outputs text_idx tokens = Raise AssertionError.
Proof.
  intros Hempty Hcomplete Hj Hshrink. unfold process_text.
  rewrite (process_text_trace tagger tokens text_idx outputs Hempty Hcomplete).
  simpl.
  set (trace := (λ j, tagger (partial_input_at tokens j))
                  <$> seq 0 (length tokens)).
  set (outputs' := <[text_idx := trace]> outputs).
  assert (Hlook : outputs' !! text_idx = Some trace)
    by apply lookup_insert_eq.
  assert (Hlen : length trace = length tokens).
  { unfold trace. rewrite length_fmap, length_seq. reflexivity. }
  assert (Hat : ∀ k, (k < length tokens)%nat →
                     trace !! k = Some (tagger (partial_input_at tokens k))).
  { intros k Hk. unfold trace. rewrite list_lookup_fmap.
    rewrite (proj2 (lookup_seq 0 (length tokens) k k)) by (split; [reflexivity|lia]).
    reflexivity. }
  rewrite (mapM_result_raise _ (py_range (py_len tokens)) AssertionError);
    [reflexivity| |].
  - intros i Hi. unfold py_range, py_len in Hi. rewrite Nat2Z.id in Hi.
    apply elem_of_seq in Hi.
    destruct (signal_cases text_idx outputs' trace i Hlook ltac:(lia))
      as [[triple ->]| ->]; [left; eexists; reflexivity | right; reflexivity].
  - exists (S j). split.
    + unfold py_range, py_len. rewrite Nat2Z.id. apply elem_of_seq. lia.
    + rewrite (signal_on_shrinking_trace text_idx outputs' trace j
                 _ _ Hlook (Hat j ltac:(lia)) (Hat (S j) Hj) Hshrink).
      reflexivity.
Qed.

Lemma process_text_fails_on_shrinking_output_witness :
  process_text (λ s, if String.eqb s "The" then ["DET"; "X"] else ["DET"])%string
    {[ "7"%string := [] ]} "7"%string [("0", "The"); ("1", "cat")]%string
  = Raise AssertionError.
Proof.
  apply (process_text_fails_on_shrinking_output
           (λ s, if String.eqb s "The" then ["DET"; "X"] else ["DET"])%string
           {[ "7"%string := [] ]} "7"%string
           [("0", "The"); ("1", "cat")]%string 0).
  - reflexivity.
  - intros [|[|j]] Hj; simpl in Hj; try lia; eexists; reflexivity.
  - simpl. lia.
  - vm_compute. lia.
Defined.

(* ===================================================================== *)
(** * Further properties of the validation cell *)

Lemma for_each_ext {A : Type} (f g : A → result unit) (l : list A) :
  (∀ x, x ∈ l → f x = g x) → for_each f l = for_each g l.
Proof.
  induction l as [|x l IH]; intros Hext; [reflexivity|].
  simpl. rewrite (Hext x) by left.
  destruct (g x); simpl; [|reflexivity].
  apply IH. intros y Hy. apply Hext. right. exact Hy.
Qed.

(** X19. The validation cell reads the tables of the six listed corpora
    and nothing else: two data sets that hold the same tables for these
    corpora are accepted or rejected alike, with the same exception,
    whatever else they hold. *)
Theorem validation_reads_listed_corpora_only
    (human_data human_data' : gmap string (dict DataFrame))
    (model_data model_data' : gmap string (gmap string (dict DataFrame))) :
  (∀ corpus_name, corpus_name ∈ corpora →
     human_data !! corpus_name = human_data' !! corpus_name
     ∧ model_data !! corpus_name = model_data' !! corpus_name) →
  validation human_data model_data = validation human_data' model_data'.
Proof.
  intros Hsame. unfold validation. apply for_each_ext.
  intros c Hc. destruct (Hsame c Hc) as [Hh Hm].
  unfold validate_corpus, py_getitem. rewrite Hh, Hm. reflexivity.
Qed.

Lemma validation_reads_listed_corpora_only_witness :
  validation
    (<[ "geco_en"%string := [] ]> documented_human_data) documented_model_data
  = validation documented_human_data documented_model_data.
Proof.
  apply (validation_reads_listed_corpora_only
           (<[ "geco_en"%string := [] ]> documented_human_data)
           documented_human_data documented_model_data documented_model_data).
  intros c Hc. split; [|reflexivity].
  unfold corpora in Hc.
  repeat (apply elem_of_cons in Hc as [->|Hc]); [reflexivity ..|].
  inversion Hc.
Defined.

(** X20. Missing token text is never tolerated: on well-formed tables, a
    human or model table of a listed corpus that has no [Token] column, or
    a missing value in it, makes the validation cell raise. *)
Theorem validation_rejects_missing_tokens
    (human_data : gmap string (dict DataFrame))
    (model_data : gmap string (gmap string (dict DataFrame)))
    (corpus_name : string) (df : DataFrame) :
  well_formed_data human_data model_data →
  corpus_name ∈ corpora →
  (∃ tables, human_data !! corpus_name = Some tables
             ∧ df ∈ dict_values tables)
  ∨ (∃ by_measure by_model,
       model_data !! corpus_name = Some by_measure
       ∧ by_measure !! MODEL_MEASURE = Some by_model
       ∧ df ∈ dict_values by_model) →
  token_column df = None
  ∨ (∃ tokens, token_column df = Some tokens ∧ NaN ∈ tokens) →
  raises (validation human_data model_data).
Proof.
  intros Hwf Hc Hdf Hmissing.
  destruct (result_unit_cases (validation human_data model_data))
    as [Hok|Hraise]; [|exact Hraise].
  exfalso.
  destruct (proj1 (validation_Ok human_data model_data Hwf) Hok _ Hc)
    as (tables & reference & by_measure & by_model
        & Htab & Href & Hhum & Hbm & Hmod & Hmodels).
  assert (Htokens : ∃ tokens, token_column df = Some tokens ∧ NaN ∉ tokens).
  { destruct Hdf as [(tables' & Htab' & Hin)
                    |(by_measure' & by_model' & Hbm' & Hmod' & Hin)].
    - rewrite Htab in Htab'. injection Htab' as <-.
      destruct (Hhum df Hin) as [_ (tokens & Ht & _ & Hnan)]. eauto.
    - rewrite Hbm in Hbm'. injection Hbm' as <-.
      rewrite Hmod in Hmod'. injection Hmod' as <-.
      destruct (Hmodels df Hin) as [_ (tokens & r & Ht & _ & Hnan & _)].
      eauto. }
  destruct Htokens as (tokens & Ht & Hnan).
  destruct Hmissing as [Hnone|(tokens' & Ht' & Hnan')]; [congruence|].
  rewrite Ht in Ht'. injection Ht' as <-. contradiction.
Qed.

Lemma gapped_data_well_formed :
  well_formed_data documented_human_data gapped_model_data.
Proof. apply well_formed_data_intro; by_decision. Qed.

Lemma two_measures_data_well_formed :
  well_formed_data two_measures_human_data documented_model_data.
Proof. apply well_formed_data_intro; by_decision. Qed.

Lemma validation_rejects_missing_tokens_witness :
  raises (validation documented_human_data gapped_model_data).
Proof.
  apply (validation_rejects_missing_tokens
           documented_human_data gapped_model_data "provo_en"
           (three_cells [VStr "a;"; NaN; VStr "d"])
           gapped_data_well_formed).
  - by_decision.
  - right.
    exists {[ MODEL_MEASURE :=
                [("hf-trf"%string, three_cells [VStr "a;"; NaN; VStr "d"])] ]},
      [("hf-trf"%string, three_cells [VStr "a;"; NaN; VStr "d"])].
    split; [vm_compute; reflexivity|].
    split; [vm_compute; reflexivity|]. left.
  - right. exists [VStr "a;"; NaN; VStr "d"].
    split; [reflexivity | by_decision].
Defined.

(** X21. Between human tables no difference at all is tolerated, also in
    the two corpora whose model tables may differ: on well-formed tables,
    a human table of a listed corpus whose [Token] column is not the
    reference table's makes the validation cell raise. *)
Theorem validation_rejects_differing_human_tokens
    (human_data : gmap string (dict DataFrame))
    (model_data : gmap string (gmap string (dict DataFrame)))
    (corpus_name : string) (tables : dict DataFrame)
    (reference df : DataFrame) :
  well_formed_data human_data model_data →
  corpus_name ∈ corpora →
  human_data !! corpus_name = Some tables →
  dict_getitem tables MEASURE = Ok reference →
  df ∈ dict_values tables →
  token_column df ≠ token_column reference →
  raises (validation human_data model_data).
Proof.
  intros Hwf Hc Htab Href Hin Hdiff.
  destruct (result_unit_cases (validation human_data model_data))
    as [Hok|Hraise]; [|exact Hraise].
  exfalso. apply Hdiff.
  destruct (proj1 (validation_Ok human_data model_data Hwf) Hok _ Hc)
    as (tables' & reference' & _ & _ & Htab' & Href' & Hhum & _).
  rewrite Htab in Htab'. injection Htab' as <-.
  rewrite Href in Href'. injection Href' as <-.
  destruct (Hhum df Hin) as [_ (tokens & Ht & Hr & _)]. congruence.
Qed.

Lemma validation_rejects_differing_human_tokens_witness :
  raises (validation two_measures_human_data documented_model_data).
Proof.
  apply (validation_rejects_differing_human_tokens
           two_measures_human_data documented_model_data "rastros_ptbr"
           [(MEASURE, three_tokens ["a;"; "b c"; "d"]%string);
            ("total-fixation-count"%string,
             three_tokens ["a;"; "b c"; "e"]%string)]
           (three_tokens ["a;"; "b c"; "d"]%string)
           (three_tokens ["a;"; "b c"; "e"]%string)
           two_measures_data_well_formed).
  - by_decision.
  - vm_compute. reflexivity.
  - reflexivity.
  - right. left.
  - discriminate.
Defined.

(* ===================================================================== *)
(** * Column names: from the loading cell to the output path *)

Section ColumnNames.

Lemma prefix_app (a s : string) :
  String.prefix a s = true → ∃ rest, s = a +:+ rest.
Proof.
  revert s. induction a as [|ch a IH]; intros s H.
  - exists s. reflexivity.
  - destruct s as [|ch' s]; [discriminate|]. simpl in H.
    destruct (ascii_dec ch ch') as [<-|]; [|discriminate].
    destruct (IH s H) as [rest ->]. exists rest. reflexivity.
Qed.

Lemma prefix_app_true (a rest : string) : String.prefix a (a +:+ rest) = true.
Proof.
  induction a as [|ch a IH]; [destruct rest; reflexivity|].
  rewrite string_app_cons. simpl.
  destruct (ascii_dec ch ch); [exact IH | contradiction].
Qed.

Lemma py_in_of_prefix (a s : string) :
  String.prefix a s = true → py_in a s = true.
Proof. intros H. destruct s; cbn [py_in]; rewrite H; reflexivity. Qed.

Lemma py_in_prefix (a rest : string) : py_in a (a +:+ rest) = true.
Proof. apply py_in_of_prefix, prefix_app_true. Qed.

Lemma py_in_char_app (c : ascii) (a b : string) :
  py_in (String c EmptyString) (a +:+ b) = false
  ↔ py_in (String c EmptyString) a = false
    ∧ py_in (String c EmptyString) b = false.
Proof.
  induction a as [|ch a IH].
  - change (EmptyString +:+ b) with b. split; [intros H; split; [reflexivity|exact H] | intros [_ H]; exact H].
  - rewrite string_app_cons, !py_in_char_cons, IH. tauto.
Qed.

Lemma py_in_needs_char (c : ascii) (a b s : string) :
  py_in (String c EmptyString) s = false →
  py_in (a +:+ String c b) s = false.
Proof.
  induction s as [|ch s IH]; intros Hc.
  - destruct a; reflexivity.
  - pose proof Hc as Hc'. apply py_in_char_cons in Hc' as [_ Hs].
    cbn [py_in]. rewrite (IH Hs), orb_false_r.
    destruct (String.prefix (a +:+ String c b) (String ch s)) eqn:Hp;
      [|reflexivity].
    apply prefix_app in Hp as [rest Hrest]. rewrite Hrest in Hc.
    rewrite string_app_assoc in Hc.
    apply py_in_char_app in Hc as [_ Hc].
    rewrite string_app_cons in Hc. apply py_in_char_cons in Hc as [Hne _].
    contradiction.
Qed.

Lemma replace_from_skip (old new a rest : string) :
  replace_from old new (String.length a) (a +:+ rest)
  = replace_from old new 0 rest.
Proof.
  induction a as [|ch a IH]; [reflexivity|].
  rewrite string_app_cons. exact IH.
Qed.

Lemma py_replace_prefix (ch : ascii) (old new rest : string) :
  py_replace (String ch old) new (String ch old +:+ rest)
  = new +:+ py_replace (String ch old) new rest.
Proof.
  unfold py_replace. rewrite string_app_cons. cbn [replace_from].
  rewrite <- string_app_cons, prefix_app_true.
  cbn [String.length].
  replace (S (String.length old) - 1)%nat with (String.length old) by lia.
  rewrite replace_from_skip. reflexivity.
Qed.

Lemma py_replace_absent (old new s : string) :
  py_in old s = false → py_replace old new s = s.
Proof.
  unfold py_replace. induction s as [|ch s IH]; [reflexivity|].
  cbn [py_in replace_from]. intros [Hp Hs]%orb_false_iff.
  rewrite Hp, (IH Hs). reflexivity.
Qed.

Lemma task_and_model_plain (task model : string) :
  py_in "_" task = false → py_in "_" model = false →
  py_in ":" task = false → py_in ":" model = false →
  task_and_model (model_column_name ("revision:" +:+ task) model)
  = (task' ← (if py_in "large" task || py_in "chunk" task
              then py_index (py_split "-" task) 0
              else Ok task);
     Ok (task', model)).
Proof.
  intros Htask Hmodel Hctask Hcmodel. unfold model_column_name.
  change (py_in "revision" ("revision:" +:+ task))
    with (py_in "revision" ("revision" +:+ (":" +:+ task))).
  rewrite (py_in_prefix "revision" (":" +:+ task)). cbn [orb].
  unfold task_and_model.
  change (("revision:" +:+ task) +:+ "_" +:+ model)
    with ("revision:" +:+ (task +:+ String "_" model)).
  rewrite (py_replace_prefix "r" "evision:" "").
  change (EmptyString +:+ ?s) with s.
  rewrite py_replace_absent.
  - rewrite (py_split_app_sep "_" task model Htask).
    rewrite (py_split_no_sep "_" model Hmodel). reflexivity.
  - apply (py_in_needs_char ":" "revision" "").
    apply py_in_char_app. split; [assumption|].
    apply py_in_char_cons. split; [discriminate | assumption].
Qed.

Lemma melt_column_path (corpus : string) (data : DataFrame)
    (default_cols : list string) (col path : string) (table : DataFrame) :
  melt_column corpus data default_cols col = Ok (path, table) →
  ∃ task model,
    task_and_model col = Ok (task, model)
    ∧ path = "preprocessed/models-humans/revisions-regressions/" +:+ corpus
               +:+ "_" +:+ model +:+ "_" +:+ task +:+ ".csv".
Proof.
  unfold melt_column, task_and_model. intros H.
  destruct (getitem_list _ _) as [aux|]; simpl in H; [|discriminate].
  destruct (mapM _ _) as [mapping|]; simpl in H; [|discriminate].
  destruct (unpack2 _) as [[task model]|]; simpl in H |- *; [|discriminate].
  destruct (if py_in "large" task || py_in "chunk" task
            then py_index (py_split "-" task) 0 else Ok task)
    as [task'|]; simpl in H |- *; [|discriminate].
  destruct (reset_index _) as [aux1|]; simpl in H; [|discriminate].
  destruct (melt _ _ _ _) as [aux2|]; simpl in H; [|discriminate].
  destruct (getitem _ _) as [ident|]; simpl in H; [|discriminate].
  destruct (str_split_expand _ _) as [parts|]; simpl in H; [|discriminate].
  destruct (setitem_list _ _ _) as [aux3|]; simpl in H; [|discriminate].
  destruct (drop_column aux3 _) as [aux4|]; simpl in H; [|discriminate].
  destruct (drop_column aux4 _) as [aux5|]; simpl in H; [|discriminate].
  injection H as <- <-. exists task', model. split; reflexivity.
Qed.

End ColumnNames.

(** X23. The loading cell and the melt-and-split cell agree on column
    names: for a plain revision column of a task, suffixed with the model
    by the loading cell, whenever the melt-and-split cell writes a table it
    writes it to [<corpus>_<model>_<task>.csv], provided task and model
    contain no underscore and no colon and the task is no [large] or
    [chunk] variant. *)
Theorem output_path_names_model_and_task (corpus : string) (data : DataFrame)
    (default_cols : list string) (task model path : string)
    (table : DataFrame) :
  py_in "_" task = false → py_in "_" model = false →
  py_in ":" task = false → py_in ":" model = false →
  py_in "large" task = false → py_in "chunk" task = false →
  melt_column corpus data default_cols
    (model_column_name ("revision:" +:+ task) model) = Ok (path, table) →
  path = "preprocessed/models-humans/revisions-regressions/" +:+ corpus
           +:+ "_" +:+ model +:+ "_" +:+ task +:+ ".csv".
Proof.
  intros Htask Hmodel Hctask Hcmodel Hlarge Hchunk Hmelt.
  destruct (melt_column_path _ _ _ _ _ _ Hmelt)
    as (task' & model' & Hparse & ->).
  rewrite (task_and_model_plain _ _ Htask Hmodel Hctask Hcmodel) in Hparse.
  rewrite Hlarge, Hchunk in Hparse. simpl in Hparse.
  injection Hparse as <- <-. reflexivity.
Qed.

Lemma output_path_names_model_and_task_witness :
  melt_column "provo" example_merged ["Token"; "Subj:001"]%string
    (model_column_name ("revision:" +:+ "pos") "modelA")
  = Ok ("preprocessed/models-humans/revisions-regressions/provo_modelA_pos.csv"%string,
        example_long)
  ∧ "preprocessed/models-humans/revisions-regressions/provo_modelA_pos.csv"%string
    = ("preprocessed/models-humans/revisions-regressions/" +:+ "provo"
         +:+ "_" +:+ "modelA" +:+ "_" +:+ "pos" +:+ ".csv")%string.
Proof.
  split; [reflexivity|].
  apply (output_path_names_model_and_task "provo" example_merged
           ["Token"; "Subj:001"]%string "pos" "modelA"
           "preprocessed/models-humans/revisions-regressions/provo_modelA_pos.csv"
           example_long);
    reflexivity.
Defined.

(** X24. Variants of a task collapse: for a task whose name contains
    [large] or [chunk], the table is written under the part of the task
    name before its first hyphen, so that two variants of one task and
    model are written to the same path. *)
Theorem variant_tasks_share_a_path (corpus : string) (data : DataFrame)
    (default_cols : list string) (task model base path : string)
    (others : list string) (table : DataFrame) :
  py_in "_" task = false → py_in "_" model = false →
  py_in ":" task = false → py_in ":" model = false →
  py_in "large" task = true ∨ py_in "chunk" task = true →
  py_split "-" task = base :: others →
  melt_column corpus data default_cols
    (model_column_name ("revision:" +:+ task) model) = Ok (path, table) →
  path = "preprocessed/models-humans/revisions-regressions/" +:+ corpus
           +:+ "_" +:+ model +:+ "_" +:+ base +:+ ".csv".
Proof.
  intros Htask Hmodel Hctask Hcmodel Hvariant Hbase Hmelt.
  destruct (melt_column_path _ _ _ _ _ _ Hmelt)
    as (task' & model' & Hparse & ->).
  rewrite (task_and_model_plain _ _ Htask Hmodel Hctask Hcmodel) in Hparse.
  assert (Hv : py_in "large" task || py_in "chunk" task = true)
    by (apply orb_true_iff; exact Hvariant).
  rewrite Hv, Hbase in Hparse. simpl in Hparse.
  injection Hparse as <- <-. reflexivity.
Qed.

Lemma variant_tasks_share_a_path_witness :
  melt_column "provo" example_variant ["Token"; "Subj:001"]%string
    (model_column_name ("revision:" +:+ "pos-large") "modelA")
  = Ok ("preprocessed/models-humans/revisions-regressions/provo_modelA_pos.csv"%string,
        example_long)
  ∧ "preprocessed/models-humans/revisions-regressions/provo_modelA_pos.csv"%string
    = ("preprocessed/models-humans/revisions-regressions/" +:+ "provo"
         +:+ "_" +:+ "modelA" +:+ "_" +:+ "pos" +:+ ".csv")%string.
Proof.
  split; [reflexivity|].
  apply (variant_tasks_share_a_path "provo" example_variant
           ["Token"; "Subj:001"]%string "pos-large" "modelA" "pos"
           "preprocessed/models-humans/revisions-regressions/provo_modelA_pos.csv"
           ["large"]%string example_long);
    try reflexivity.
  left. reflexivity.
Defined.

(** X25. An underscore in the name of the task or of the model is not
    survived: the melt-and-split cell cannot read task and model off such
    a column name and writes no table for it. *)
Theorem underscore_in_task_or_model (corpus : string) (data : DataFrame)
    (default_cols : list string) (task model : string) :
  py_in ":" task = false → py_in ":" model = false →
  py_in "_" task = true ∨ py_in "_" model = true →
  task_and_model (model_column_name ("revision:" +:+ task) model)
  = Raise ValueError
  ∧ ∀ file,
      melt_column corpus data default_cols
        (model_column_name ("revision:" +:+ task) model) ≠ Ok file.
Proof.
  intros Hctask Hcmodel Hunder.
  assert (Hparse : task_and_model
                     (model_column_name ("revision:" +:+ task) model)
                   = Raise ValueError).
  { unfold model_column_name.
    change (py_in "revision" ("revision:" +:+ task))
      with (py_in "revision" ("revision" +:+ (":" +:+ task))).
    rewrite (py_in_prefix "revision" (":" +:+ task)). cbn [orb].
    unfold task_and_model.
    change (("revision:" +:+ task) +:+ "_" +:+ model)
      with ("revision:" +:+ (task +:+ String "_" model)).
    rewrite (py_replace_prefix "r" "evision:" "").
    change (EmptyString +:+ ?s) with s.
    rewrite py_replace_absent.
    2: { apply (py_in_needs_char ":" "revision" "").
         apply py_in_char_app. split; [assumption|].
         apply py_in_char_cons. split; [discriminate | assumption]. }
    pose proof (py_split_app_sep_length "_" task model) as Hlen.
    pose proof (py_split_not_nil "_" task).
    pose proof (py_split_not_nil "_" model).
    assert (3 ≤ length (py_split "_" (task +:+ String "_" model)))%nat.
    { rewrite Hlen.
      destruct Hunder as [H1|H1]; apply py_split_sep_inside in H1;
        destruct (py_split "_" task), (py_split "_" model);
        simpl in *; try contradiction; lia. }
    destruct (py_split "_" (task +:+ String "_" model))
      as [|a [|b [|c l]]]; simpl in *; try lia. reflexivity. }
  split; [exact Hparse|].
  intros [path table] Hmelt.
  destruct (melt_column_path _ _ _ _ _ _ Hmelt) as (t & m & Ht & _).
  rewrite Hparse in Ht. discriminate.
Qed.

Lemma underscore_in_task_or_model_witness :
  task_and_model (model_column_name ("revision:" +:+ "pos") "hf_trf")
  = Raise ValueError.
Proof.
  apply (underscore_in_task_or_model "provo" example_merged [] "pos" "hf_trf");
    [reflexivity | reflexivity | right; reflexivity].
Defined.

(** A revision that changes only a NUL character at the end of a label, at
    the last position of a trace: a revision, convenient, not effective. *)
Example get_revised_signal_nul_only :
  get_revised_signal {[ "7"%string := [["A"%string]; [A_nul; "B"%string]] ]}
    "7"%string 1
  = Ok (1, 1, 0).
Proof. reflexivity. Qed.
